(** * slack-knowledge-assistant: the retrieval-and-guardrail pipeline

    A shallow embedding of [src/slack-knowledge-assistant.py] and the
    properties its specification states about it.

    Conventions of the model.
    - A Python [str] is a list of characters, [text].  A character is an
      8-bit code ([ascii]), read as the Unicode code point of the same
      number: the model covers texts over code points 0..255, and on that
      range [str.isspace], [str.lower] and the matching of [re] under the
      [(?i)] flag are written out in full.
    - The collaborators of the program (the text-completion model, the
      wiki client, the database driver, the chat reply channel, the log) are
      not part of the program: every call to one of them is an [event], the
      program is a tree of such calls ([prog]), and [run] plays a program
      against an arbitrary environment, recording every call and its answer.
    - Python exceptions are values of [exn]; [try_except_Exception] catches
      exactly the instances of [Exception], as the source's handlers do. *)

From Stdlib Require Import List Ascii String Bool Arith NArith Lia.
Import ListNotations.

(* ================================================================== *)
(** * Python strings *)
(* ================================================================== *)

Definition text := list ascii.

(** String literals of the source, as [text]. *)
Notation "'txt' s" := (list_ascii_of_string s) (at level 9, s at level 0, only parsing).

Definition code (c : ascii) : nat := nat_of_ascii c.

Definition between (lo n hi : nat) : bool := (lo <=? n) && (n <=? hi).

(** [str.isspace] on one character: TAB..CR, FS..US, SPACE, NEL, NBSP. *)
Definition is_space (c : ascii) : bool :=
  between 9 (code c) 13 || between 28 (code c) 32
  || (code c =? 133) || (code c =? 160).

(** [str.lower] on one character: A..Z, and the capital letters of the
    Latin-1 block (all of U+00C0..U+00DE but the multiplication sign). *)
Definition is_upper (c : ascii) : bool :=
  between 65 (code c) 90
  || (between 192 (code c) 222 && negb (code c =? 215)).

Definition lower_char (c : ascii) : ascii :=
  if is_upper c then ascii_of_nat (code c + 32) else c.

(** [s.lower()] *)
Definition lower (s : text) : text := map lower_char s.

(** [s.lstrip()], [s.rstrip()], [s.strip()] *)
Fixpoint lstrip (s : text) : text :=
  match s with
  | [] => []
  | c :: s' => if is_space c then lstrip s' else s
  end.

Fixpoint rstrip (s : text) : text :=
  match s with
  | [] => []
  | c :: s' =>
      match rstrip s' with
      | [] => if is_space c then [] else [c]
      | r => c :: r
      end
  end.

Definition strip (s : text) : text := rstrip (lstrip s).

(** [s.startswith(prefix)] *)
Fixpoint startswith (s prefix : text) : bool :=
  match prefix, s with
  | [], _ => true
  | _ :: _, [] => false
  | p :: prefix', c :: s' => Ascii.eqb c p && startswith s' prefix'
  end.

(** [sep.join(parts)] *)
Fixpoint join (sep : text) (parts : list text) : text :=
  match parts with
  | [] => []
  | [p] => p
  | p :: rest => p ++ sep ++ join sep rest
  end.

(** [s.split(sep, 1)] for a one-character separator: the text before the
    first [sep] and the text after it, or [s] alone when [sep] is absent. *)
Fixpoint split_1 (sep : ascii) (s : text) : list text :=
  match s with
  | [] => [[]]
  | c :: s' =>
      if Ascii.eqb c sep then [[]; s']
      else match split_1 sep s' with
           | before :: rest => (c :: before) :: rest
           | [] => [[c]]
           end
  end.

(* ================================================================== *)
(** * Regular expressions: the fragment of [re] the patterns use *)
(* ================================================================== *)

Inductive regex : Type :=
| Eps                          (* the empty pattern *)
| Lit (c : ascii)              (* a literal character *)
| Dot                          (* [.] : any character but newline *)
| Set_ (cs : list ascii)       (* [[...]] : one of the listed characters *)
| Cat (r1 r2 : regex)          (* concatenation *)
| Opt (r : regex).             (* [r?] *)

(** A compiled pattern: its flags and its body. *)
Record pattern : Type := Pattern { ignorecase : bool; body : regex }.

(** The literal string [s] as a pattern body. *)
Fixpoint lits (s : text) : regex :=
  match s with
  | [] => Eps
  | [c] => Lit c
  | c :: s' => Cat (Lit c) (lits s')
  end.

Definition newline : ascii := ascii_of_nat 10.

(** Does the literal [p] of a pattern accept the character [c]?  Under
    IGNORECASE both sides are compared in lower case. *)
Definition lit_accepts (ic : bool) (p c : ascii) : bool :=
  if ic then Ascii.eqb (lower_char c) (lower_char p) else Ascii.eqb c p.

Definition dot_accepts (c : ascii) : bool := negb (Ascii.eqb c newline).

(** The matches of a pattern body, as a relation: the reference meaning. *)
Inductive matches (ic : bool) : regex -> text -> Prop :=
| M_Eps : matches ic Eps []
| M_Lit p c : lit_accepts ic p c = true -> matches ic (Lit p) [c]
| M_Dot c : dot_accepts c = true -> matches ic Dot [c]
| M_Set cs c : existsb (fun p => lit_accepts ic p c) cs = true ->
               matches ic (Set_ cs) [c]
| M_Cat r1 r2 s1 s2 : matches ic r1 s1 -> matches ic r2 s2 ->
                      matches ic (Cat r1 r2) (s1 ++ s2)
| M_OptSome r s : matches ic r s -> matches ic (Opt r) s
| M_OptNone r : matches ic (Opt r) [].

(** The backtracking matcher: [backtrack ic r s k] tries every way of
    matching [r] at the head of [s] (the greedy one first) and hands the
    rest of the text to the continuation [k]. *)
Fixpoint backtrack (ic : bool) (r : regex) (s : text) (k : text -> bool) : bool :=
  match r with
  | Eps => k s
  | Lit p =>
      match s with c :: s' => lit_accepts ic p c && k s' | [] => false end
  | Dot =>
      match s with c :: s' => dot_accepts c && k s' | [] => false end
  | Set_ cs =>
      match s with
      | c :: s' => existsb (fun p => lit_accepts ic p c) cs && k s'
      | [] => false
      end
  | Cat r1 r2 => backtrack ic r1 s (fun s' => backtrack ic r2 s' k)
  | Opt r' => backtrack ic r' s k || k s
  end.

(** [re.match(p, s)]: a match at the start of [s]. *)
Definition re_match (p : pattern) (s : text) : bool :=
  backtrack (ignorecase p) (body p) s (fun _ => true).

(** [re.search(p, s)]: a match starting at some position of [s]. *)
Fixpoint re_search (p : pattern) (s : text) : bool :=
  re_match p s
  || match s with
     | [] => false
     | _ :: s' => re_search p s'
     end.

(** Can the pattern match the empty text? *)
Fixpoint nullable (r : regex) : bool :=
  match r with
  | Eps => true
  | Lit _ | Dot | Set_ _ => false
  | Cat r1 r2 => nullable r1 && nullable r2
  | Opt _ => true
  end.

(** Every non-empty match begins with a character that is not whitespace. *)
Fixpoint starts_solid (r : regex) : bool :=
  match r with
  | Eps => true
  | Lit p => negb (is_space p)
  | Dot => false
  | Set_ cs => forallb (fun p => negb (is_space p)) cs
  | Cat r1 r2 => starts_solid r1 && (if nullable r1 then starts_solid r2 else true)
  | Opt r' => starts_solid r'
  end.

(** Every non-empty match ends with a character that is not whitespace. *)
Fixpoint ends_solid (r : regex) : bool :=
  match r with
  | Eps => true
  | Lit p => negb (is_space p)
  | Dot => false
  | Set_ cs => forallb (fun p => negb (is_space p)) cs
  | Cat r1 r2 => ends_solid r2 && (if nullable r2 then ends_solid r1 else true)
  | Opt r' => ends_solid r'
  end.

(** No match contains a newline. *)
Fixpoint newline_free (r : regex) : bool :=
  match r with
  | Eps | Dot => true
  | Lit p => negb (Ascii.eqb p newline)
  | Set_ cs => forallb (fun p => negb (Ascii.eqb p newline)) cs
  | Cat r1 r2 => newline_free r1 && newline_free r2
  | Opt r' => newline_free r'
  end.

(* ================================================================== *)
(** * ContentFilter *)
(* ================================================================== *)

Record ContentFilter : Type := { blocked_patterns : list pattern }.

(** [ContentFilter.__init__] *)
Definition ContentFilter_init : ContentFilter :=
  {| blocked_patterns :=
       [ (* r'(?i)password[s]?' *)
         Pattern true (Cat (lits (txt "password")) (Opt (Set_ (txt "s"))));
         (* r'(?i)credit.?card' *)
         Pattern true (Cat (lits (txt "credit")) (Cat (Opt Dot) (lits (txt "card"))));
         (* r'(?i)ssn' *)
         Pattern true (lits (txt "ssn"));
         (* r'(?i)social.?security' *)
         Pattern true (Cat (lits (txt "social")) (Cat (Opt Dot) (lits (txt "security"))))
       ] |}.

(** The loop of [is_safe_content] over the patterns. *)
Fixpoint no_pattern_found (patterns : list pattern) (t : text) : bool :=
  match patterns with
  | [] => true
  | p :: rest => if re_search p t then false else no_pattern_found rest t
  end.

(** [ContentFilter.is_safe_content] *)
Definition is_safe_content (self : ContentFilter) (t : text) : bool :=
  no_pattern_found (blocked_patterns self) t.

(* ================================================================== *)
(** * Python dictionaries, exceptions and the outside world *)
(* ================================================================== *)

Fixpoint text_eqb (a b : text) : bool :=
  match a, b with
  | [], [] => true
  | x :: a', y :: b' => Ascii.eqb x y && text_eqb a' b'
  | _, _ => false
  end.

(** A [dict] with string keys, in insertion order. *)
Definition dict (V : Type) : Type := list (text * V).

(** [d[k] = v]: an existing key keeps its place and takes the new value. *)
Fixpoint dict_set {V} (d : dict V) (k : text) (v : V) : dict V :=
  match d with
  | [] => [(k, v)]
  | (k', v') :: d' =>
      if text_eqb k' k then (k', v) :: d' else (k', v') :: dict_set d' k v
  end.

(** [dict(pairs)] *)
Definition dict_of {V} (pairs : list (text * V)) : dict V :=
  fold_left (fun d kv => dict_set d (fst kv) (snd kv)) pairs [].

(** [d.values()] *)
Definition values {V} (d : dict V) : list V := map snd d.

(** [zip(a, b)] is [List.combine]: it stops at the shorter argument. *)
Definition zip {A B} (a : list A) (b : list B) : list (A * B) := combine a b.

(** A raised exception: whether its class derives from [Exception] (what
    [except Exception] catches), its class name and [str(e)]. *)
Record exn : Type := Exn { is_Exception : bool; exn_class : text; exn_str : text }.

Definition KeyError (key : text) : exn :=
  Exn true (txt "KeyError") (txt "'" ++ key ++ txt "'").
Definition IndexError : exn :=
  Exn true (txt "IndexError") (txt "list index out of range").
Definition TypeError_not_iterable : exn :=
  Exn true (txt "TypeError") (txt "'NoneType' object is not iterable").

(** One item of [confluence.search]: the keys the program reads. *)
Record raw_result : Type := RawResult {
  raw_content : option text;            (* result.get('content', '') *)
  raw_title : option text;              (* result.get('title') *)
  raw_excerpt : option text;            (* result.get('excerpt') *)
  raw_links : option (option text)      (* result.get('_links', {}).get('webui') *)
}.

(** One item of the list [search_confluence] returns. *)
Record wiki_item : Type := WikiItem {
  title : option text;
  excerpt : option text;
  url : option text
}.

(** [config['postgres']] *)
Record PostgresConfig : Type := {
  database : text;
  user : text;
  password : text;
  host : text;
  port : N;
  allowed_tables : list text
}.

(** The inbound chat event: the keys the handlers read. *)
Record slack_event : Type := SlackEvent {
  event_text : option text;             (* event['text'] *)
  event_channel_type : option text      (* event.get('channel_type') *)
}.

Definition connection := nat.
Definition cursor := nat.

(** What the program takes from the Python runtime and its configuration:
    the values the database driver puts in a row with [str(value)],
    Python's own formatting of a list of dictionaries
    ([f"{confluence_results}"], [f"{db_results}"]), and [config['postgres']]. *)
Class Runtime : Type := {
  value : Type;
  py_str : value -> text;
  format_items : list wiki_item -> text;
  format_records : list (dict value) -> text;
  postgres : PostgresConfig
}.

Section Pipeline.

Context {R : Runtime}.

Definition record : Type := dict value.

(** The calls the program makes to its collaborators, each with the type
    of its normal answer. *)
Inductive event : Type -> Type :=
| Llm (prompt : text) (max_tokens : nat) : event text
    (* llm(prompt, max_tokens=n)['choices'][0]['text'] *)
| ConfluenceSearch (query : text) (limit : nat) : event (list raw_result)
| DbConnect (dbname user password host : text) (port : N) : event connection
| ConnCursor (conn : connection) : event cursor
| CurExecute (cur : cursor) (sql : text) : event unit
| CurDescription (cur : cursor) : event (option (list text))
    (* the column names desc[0] of cur.description, or None *)
| CurFetchall (cur : cursor) : event (list (list value))
| CurClose (cur : cursor) : event unit
| ConnCommit (conn : connection) : event unit
| ConnRollback (conn : connection) : event unit
| Say (message : text) : event unit.

(** A program: it returns, raises, calls a collaborator and goes on with
    the answer (an exception or a value), or prints a line. *)
Inductive prog (A : Type) : Type :=
| Ret (a : A)
| Raise (e : exn)
| Do {X : Type} (ev : event X) (k : exn + X -> prog A)
| Println (line : text) (k : prog A).

Arguments Ret {A} a.
Arguments Raise {A} e.
Arguments Do {A X} ev k.
Arguments Println {A} line k.

Fixpoint bind {A B} (p : prog A) (f : A -> prog B) : prog B :=
  match p with
  | Ret a => f a
  | Raise e => Raise e
  | Do ev k => Do ev (fun r => bind (k r) f)
  | Println line k => Println line (bind k f)
  end.

Notation "x <- p ;; q" := (bind p (fun x => q))
  (at level 61, p at next level, right associativity).
Notation "p ;; q" := (bind p (fun _ => q))
  (at level 61, right associativity).

(** A call whose exception, if any, is raised at the call site. *)
Definition call {X} (ev : event X) : prog X :=
  Do ev (fun r => match r with inl e => Raise e | inr x => Ret x end).

Definition print (line : text) : prog unit := Println line (Ret tt).

(** [try: body / except Exception as e: handler e] *)
Fixpoint try_except_Exception {A} (body : prog A) (handler : exn -> prog A) : prog A :=
  match body with
  | Ret a => Ret a
  | Raise e => if is_Exception e then handler e else Raise e
  | Do ev k => Do ev (fun r => try_except_Exception (k r) handler)
  | Println line k => Println line (try_except_Exception k handler)
  end.

(** The exit of a [with] block: [on_success] when the body ends normally,
    [on_error] (and the exception again) when it raises. *)
Fixpoint with_exit {A} (body : prog A) (on_success on_error : prog unit) : prog A :=
  match body with
  | Ret a => on_success ;; Ret a
  | Raise e => on_error ;; Raise e
  | Do ev k => Do ev (fun r => with_exit (k r) on_success on_error)
  | Println line k => Println line (with_exit k on_success on_error)
  end.

(** [with conn: body]: psycopg2 commits on a normal exit and rolls back
    on an exception. *)
Definition with_connection {A} (conn : connection) (body : prog A) : prog A :=
  with_exit body (call (ConnCommit conn)) (call (ConnRollback conn)).

(** [with cur: body]: the cursor is closed on every exit. *)
Definition with_cursor {A} (cur : cursor) (body : prog A) : prog A :=
  with_exit body (call (CurClose cur)) (call (CurClose cur)).

(** What a run leaves behind: every call with its answer, every line
    printed, in order. *)
Inductive step : Type :=
| Called {X : Type} (ev : event X) (answer : exn + X)
| Printed (line : text).

Definition trace := list step.

(** The outside world: it answers each call, knowing all that happened
    before. *)
Definition env : Type := forall X, trace -> event X -> exn + X.

Inductive outcome (A : Type) : Type :=
| Returned (a : A)
| Raised (e : exn).

Arguments Returned {A} a.
Arguments Raised {A} e.

(** [run w p h]: play [p] in the world [w] after the history [h]; the
    result is how [p] ends and the steps [p] itself made. *)
Fixpoint run {A} (w : env) (p : prog A) (h : trace) : outcome A * trace :=
  match p with
  | Ret a => (Returned a, [])
  | Raise e => (Raised e, [])
  | Do ev k =>
      let r := w _ h ev in
      let '(o, t) := run w (k r) (h ++ [Called ev r]) in
      (o, Called ev r :: t)
  | Println line k =>
      let '(o, t) := run w k (h ++ [Printed line]) in
      (o, Printed line :: t)
  end.

(* ================================================================== *)
(** * KnowledgeBase *)
(* ================================================================== *)

Record KnowledgeBase : Type := { content_filter : ContentFilter }.

(** [KnowledgeBase.__init__] *)
Definition KnowledgeBase_init : KnowledgeBase :=
  {| content_filter := ContentFilter_init |}.

(** [d.get(key, default)] on a key that may be absent. *)
Definition get_or {A} (field : option A) (default : A) : A :=
  match field with Some a => a | None => default end.

(** The [for result in results] loop of [search_confluence]. *)
Fixpoint search_confluence_loop (self : KnowledgeBase) (results : list raw_result)
    (filtered_results : list wiki_item) : list wiki_item :=
  match results with
  | [] => filtered_results
  | result :: rest =>
      if is_safe_content (content_filter self) (get_or (raw_content result) [])
      then search_confluence_loop self rest
             (filtered_results ++
                [ {| title := raw_title result;
                     excerpt := raw_excerpt result;
                     url := get_or (raw_links result) None |} ])
      else search_confluence_loop self rest filtered_results
  end.

(** [KnowledgeBase.search_confluence] *)
Definition search_confluence (self : KnowledgeBase) (query : text)
    : prog (list wiki_item) :=
  results <- call (ConfluenceSearch query 5) ;;
  Ret (search_confluence_loop self results []).

(** [get_db_connection] *)
Definition get_db_connection : prog connection :=
  call (DbConnect (database postgres) (user postgres) (password postgres)
          (host postgres) (port postgres)).

Definition nl : text := [newline].

(** The prompt of [query_database]. *)
Definition sql_prompt (query : text) : text :=
  txt "Convert this question to a safe SQL query that only uses SELECT statements and the following tables: "
  ++ join (txt ", ") (allowed_tables postgres) ++ nl
  ++ txt "        Question: " ++ query ++ nl
  ++ txt "        SQL:".

(** The validation of [query_database]:
    [sql_query.lower().startswith('select')]. *)
Definition query_guard (sql_query : text) : bool :=
  startswith (lower sql_query) (txt "select").

(** [all(is_safe_content(str(value)) for value in result.values())] *)
Definition record_is_safe (self : KnowledgeBase) (result : record) : bool :=
  forallb (fun v => is_safe_content (content_filter self) (py_str v)) (values result).

(** The [for row in cur.fetchall()] loop of [query_database]. *)
Fixpoint query_database_loop (self : KnowledgeBase) (columns : list text)
    (rows : list (list value)) (results : list record) : list record :=
  match rows with
  | [] => results
  | row :: rest =>
      let result := dict_of (zip columns row) in
      if record_is_safe self result
      then query_database_loop self columns rest (results ++ [result])
      else query_database_loop self columns rest results
  end.

(** [KnowledgeBase.query_database].  [results] is the empty list until the
    loop runs, and the loop makes no call: the handler of the [try]
    therefore leaves with the empty list. *)
Definition query_database (self : KnowledgeBase) (query : text)
    : prog (list record) :=
  let prompt := sql_prompt query in
  sql_response <- call (Llm prompt 100) ;;
  let sql_query := strip sql_response in
  if negb (query_guard sql_query) then Ret []
  else
    conn <- get_db_connection ;;
    with_connection conn
      (cur <- call (ConnCursor conn) ;;
       with_cursor cur
         (try_except_Exception
            (call (CurExecute cur sql_query) ;;
             description <- call (CurDescription cur) ;;
             columns <- match description with
                        | Some names => Ret names
                        | None => Raise TypeError_not_iterable
                        end ;;
             rows <- call (CurFetchall cur) ;;
             Ret (query_database_loop self columns rows []))
            (fun e =>
               print (txt "Database query error: " ++ exn_str e) ;;
               Ret []))).

(* ================================================================== *)
(** * ResponseGenerator *)
(* ================================================================== *)

Record ResponseGenerator : Type := { kb : KnowledgeBase }.

(** [ResponseGenerator.__init__] *)
Definition ResponseGenerator_init : ResponseGenerator :=
  {| kb := KnowledgeBase_init |}.

(** The prompt of [generate_response]. *)
Definition answer_prompt (confluence_results : list wiki_item)
    (db_results : list record) (query : text) : text :=
  nl
  ++ txt "        Information from Confluence:" ++ nl
  ++ txt "        " ++ format_items confluence_results ++ nl
  ++ txt "        " ++ nl
  ++ txt "        Information from Database:" ++ nl
  ++ txt "        " ++ format_records db_results ++ nl
  ++ txt "        " ++ nl
  ++ txt "        Based on the above information, please provide a helpful and accurate response." ++ nl
  ++ txt "        Question: " ++ query ++ nl
  ++ txt "        Answer:".

(** Truth value of a list: [if xs:]. *)
Definition truthy {A} (xs : list A) : bool :=
  match xs with [] => false | _ :: _ => true end.

(** The source attribution of [generate_response]: the list [sources]. *)
Definition sources_of (confluence_results : list wiki_item)
    (db_results : list record) : list text :=
  let sources := [] in
  let sources :=
    if truthy confluence_results then sources ++ [txt "Confluence"] else sources in
  let sources :=
    if truthy db_results then sources ++ [txt "internal database"] else sources in
  sources.

(** ... and the text it adds to the answer. *)
Definition add_attribution (generated_text : text) (sources : list text) : text :=
  if truthy sources
  then generated_text ++ nl ++ nl ++ txt "Sources: " ++ join (txt " and ") sources
  else generated_text.

(** [ResponseGenerator.generate_response] *)
Definition generate_response (self : ResponseGenerator) (query : text) : prog text :=
  confluence_results <- search_confluence (kb self) query ;;
  db_results <- query_database (kb self) query ;;
  let context := answer_prompt confluence_results db_results query in
  response <- call (Llm context 500) ;;
  let generated_text := strip response in
  Ret (add_attribution generated_text (sources_of confluence_results db_results)).

(* ================================================================== *)
(** * The handlers *)
(* ================================================================== *)

(** [response_generator = ResponseGenerator()] *)
Definition response_generator : ResponseGenerator := ResponseGenerator_init.

Definition apology : text :=
  txt "I apologize, but I encountered an error processing your request. Please try again or rephrase your question.".

(** [event['text']] *)
Definition subscript_text (event : slack_event) : prog text :=
  match event_text event with
  | Some t => Ret t
  | None => Raise (KeyError (txt "text"))
  end.

(** [parts[1]] *)
Definition subscript_1 (parts : list text) : prog text :=
  match nth_error parts 1 with
  | Some part => Ret part
  | None => Raise IndexError
  end.

(** [handle_mention] *)
Definition handle_mention (event : slack_event) : prog unit :=
  try_except_Exception
    (t <- subscript_text event ;;
     part <- subscript_1 (split_1 ">" t) ;;
     let query := strip part in
     response <- generate_response response_generator query ;;
     call (Say response))
    (fun e =>
       call (Say apology) ;;
       print (txt "Error processing mention: " ++ exn_str e)).

(** [event.get('channel_type') == 'im'] *)
Definition is_im (event : slack_event) : bool :=
  match event_channel_type event with
  | Some c => text_eqb c (txt "im")
  | None => false
  end.

(** [handle_message] *)
Definition handle_message (event : slack_event) : prog unit :=
  if is_im event then
    try_except_Exception
      (t <- subscript_text event ;;
       response <- generate_response response_generator t ;;
       call (Say response))
      (fun e =>
         call (Say apology) ;;
         print (txt "Error processing message: " ++ exn_str e))
  else Ret tt.

End Pipeline.

Arguments Ret {R A} a.
Arguments Raise {R A} e.
Arguments Do {R A X} ev k.
Arguments Println {R A} line k.
Arguments Returned {A} a.
Arguments Raised {A} e.

(* ================================================================== *)
(** * Reading a run *)
(* ================================================================== *)

Section Observations.

Context {R : Runtime}.

(** The statements handed to [cur.execute], in order. *)
Fixpoint executed (t : trace) : list text :=
  match t with
  | [] => []
  | Called ev _ :: t' =>
      match ev with
      | CurExecute _ sql => sql :: executed t'
      | _ => executed t'
      end
  | Printed _ :: t' => executed t'
  end.

(** The number of connections asked of the database driver. *)
Fixpoint connections (t : trace) : nat :=
  match t with
  | [] => 0
  | Called ev _ :: t' =>
      match ev with
      | DbConnect _ _ _ _ _ => S (connections t')
      | _ => connections t'
      end
  | Printed _ :: t' => connections t'
  end.

(** The messages handed to [say], in order. *)
Fixpoint said (t : trace) : list text :=
  match t with
  | [] => []
  | Called ev _ :: t' =>
      match ev with
      | Say message => message :: said t'
      | _ => said t'
      end
  | Printed _ :: t' => said t'
  end.

(** [follows w h steps]: after the history [h] the world [w] gives, call
    after call, the answers written in [steps]. *)
Fixpoint follows (w : env) (h : trace) (steps : trace) : Prop :=
  match steps with
  | [] => True
  | Called ev r :: rest => w _ h ev = r /\ follows w (h ++ [Called ev r]) rest
  | Printed line :: rest => follows w (h ++ [Printed line]) rest
  end.

(** The record [query_database] builds from a row. *)
Definition record_of (columns : list text) (row : list value) : record :=
  dict_of (zip columns row).

(** The item [search_confluence] builds from a raw result. *)
Definition item_of (result : raw_result) : wiki_item :=
  {| title := raw_title result;
     excerpt := raw_excerpt result;
     url := get_or (raw_links result) None |}.

(** The text [search_confluence] submits to the content filter. *)
Definition checked_text (result : raw_result) : text :=
  get_or (raw_content result) [].

(** The results [search_confluence] keeps. *)
Definition kept_results (self : KnowledgeBase) (results : list raw_result)
    : list raw_result :=
  filter (fun r => is_safe_content (content_filter self) (checked_text r)) results.

(** The call [get_db_connection] makes. *)
Definition connect_event : event connection :=
  DbConnect (database postgres) (user postgres) (password postgres)
    (host postgres) (port postgres).

(** The first steps of [query_database] when the translation [t] is
    accepted and the database opens a connection and a cursor. *)
Definition opening (query t : text) (c : connection) (cur : cursor) : trace :=
  [ Called (Llm (sql_prompt query) 100) (inr t);
    Called connect_event (inr c);
    Called (ConnCursor c) (inr cur) ].

(** All the steps of [query_database] when the database also executes the
    statement and hands back [columns] and [rows]. *)
Definition session (query t : text) (c : connection) (cur : cursor)
    (columns : list text) (rows : list (list value)) : trace :=
  opening query t c cur ++
  [ Called (CurExecute cur (strip t)) (inr tt);
    Called (CurDescription cur) (inr (Some columns));
    Called (CurFetchall cur) (inr rows);
    Called (CurClose cur) (inr tt);
    Called (ConnCommit c) (inr tt) ].

(** What the [try] block of [handle_mention] does before it replies. *)
Definition mention_answer (event : slack_event) : prog text :=
  bind (subscript_text event) (fun t =>
  bind (subscript_1 (split_1 ">" t)) (fun part =>
  generate_response response_generator (strip part))).

(** What the [try] block of [handle_message] does before it replies. *)
Definition message_answer (event : slack_event) : prog text :=
  bind (subscript_text event) (fun t =>
  generate_response response_generator t).

(** Counting the steps of a run that satisfy [f]. *)
Definition count_steps (f : step -> bool) (t : trace) : nat :=
  List.length (filter f t).

(** A cursor handed out by [conn.cursor()]. *)
Definition cursor_opened (s : step) : bool :=
  match s with
  | Called ev r =>
      match ev in event X return exn + X -> bool with
      | ConnCursor _ => fun r => match r with inr _ => true | inl _ => false end
      | _ => fun _ => false
      end r
  | Printed _ => false
  end.

(** A call to [cur.close()]. *)
Definition cursor_closed (s : step) : bool :=
  match s with
  | Called ev _ => match ev with CurClose _ => true | _ => false end
  | Printed _ => false
  end.

(** A connection handed out by [psycopg2.connect]. *)
Definition connection_opened (s : step) : bool :=
  match s with
  | Called ev r =>
      match ev in event X return exn + X -> bool with
      | DbConnect _ _ _ _ _ =>
          fun r => match r with inr _ => true | inl _ => false end
      | _ => fun _ => false
      end r
  | Printed _ => false
  end.

(** A call to [conn.commit()], to [conn.rollback()]. *)
Definition committed (s : step) : bool :=
  match s with
  | Called ev _ => match ev with ConnCommit _ => true | _ => false end
  | Printed _ => false
  end.

Definition rolled_back (s : step) : bool :=
  match s with
  | Called ev _ => match ev with ConnRollback _ => true | _ => false end
  | Printed _ => false
  end.

End Observations.

(* ================================================================== *)
(** * The specification's own words *)
(* ================================================================== *)

(** Two characters that differ at most by their case. *)
Definition same_letter (a b : ascii) : bool :=
  Ascii.eqb (lower_char a) (lower_char b).

(** A casing variation of a text: the same letters, in any case. *)
Definition casing_variation (s s' : text) : Prop :=
  Forall2 (fun a b => same_letter a b = true) s s'.

(** A text made of whitespace only. *)
Definition whitespace (s : text) : Prop := Forall (fun c => is_space c = true) s.

(** [s] begins with [keyword], case-insensitively. *)
Fixpoint begins_ci (s keyword : text) : bool :=
  match keyword, s with
  | [], _ => true
  | _ :: _, [] => false
  | k :: keyword', c :: s' => same_letter c k && begins_ci s' keyword'
  end.

Fixpoint drop_while {A} (f : A -> bool) (l : list A) : list A :=
  match l with
  | [] => []
  | x :: l' => if f x then drop_while f l' else l
  end.

(** QueryGuard as the specification words it: ignoring leading whitespace,
    the query begins case-insensitively with the retrieval keyword. *)
Definition QueryGuard_accepts (query : text) : bool :=
  begins_ci (drop_while is_space query) (txt "select").

(** [t] contains a substring matched by [p]. *)
Definition contains_match (p : pattern) (t : text) : Prop :=
  exists before m after,
    t = before ++ m ++ after /\ matches (ignorecase p) (body p) m.

(** [t] contains a substring matched by one of the blocked patterns. *)
Definition contains_blocked (self : ContentFilter) (t : text) : Prop :=
  exists p, In p (blocked_patterns self) /\ contains_match p t.

(** An unaccented Latin letter, A..Z or a..z. *)
Definition is_ascii_letter (c : ascii) : bool :=
  between 65 (code c) 90 || between 97 (code c) 122.

(** The attribution suffix, case by case. *)
Definition attribution_suffix {A B} (wiki_results : list A) (record_results : list B)
    : text :=
  match wiki_results, record_results with
  | [], [] => []
  | _ :: _, [] => nl ++ nl ++ txt "Sources: Confluence"
  | [], _ :: _ => nl ++ nl ++ txt "Sources: internal database"
  | _ :: _, _ :: _ => nl ++ nl ++ txt "Sources: Confluence and internal database"
  end.

(* ================================================================== *)
(** * A concrete runtime and scripted worlds *)
(* ================================================================== *)

(** Values of a row: NULL, booleans and text. *)
Inductive sql_value : Type :=
| SqlNull
| SqlBool (b : bool)
| SqlText (t : text).

Definition sql_value_str (v : sql_value) : text :=
  match v with
  | SqlNull => txt "None"
  | SqlBool true => txt "True"
  | SqlBool false => txt "False"
  | SqlText t => t
  end.

Definition sample_runtime : Runtime := {|
  value := sql_value;
  py_str := sql_value_str;
  format_items := fun items =>
    txt "[" ++ join (txt ", ") (map (fun i => get_or (excerpt i) (txt "None")) items) ++ txt "]";
  format_records := fun records =>
    txt "[" ++ join (txt ", ")
      (map (fun r : dict sql_value => join (txt " ") (map sql_value_str (values r))) records)
    ++ txt "]";
  postgres := {| database := txt "kb"; user := txt "bot"; password := txt "pw";
                 host := txt "localhost"; port := 5432%N;
                 allowed_tables := [txt "employees"; txt "projects"] |}
|}.

(** A world that gives the same answer to every call of one kind; the two
    uses of the model are told apart by [max_tokens]. *)
Record script : Type := {
  on_search : exn + list raw_result;
  on_translate : exn + text;
  on_synthesis : exn + text;
  on_connect : exn + connection;
  on_cursor : exn + cursor;
  on_execute : exn + unit;
  on_description : exn + option (list text);
  on_fetchall : exn + list (list sql_value);
  on_say : exn + unit
}.

Definition scripted (s : script) : @env sample_runtime :=
  fun X _ ev =>
    match ev in @event _ X return exn + X with
    | Llm _ max_tokens => if max_tokens =? 100 then on_translate s else on_synthesis s
    | ConfluenceSearch _ _ => on_search s
    | DbConnect _ _ _ _ _ => on_connect s
    | ConnCursor _ => on_cursor s
    | CurExecute _ _ => on_execute s
    | CurDescription _ => on_description s
    | CurFetchall _ => on_fetchall s
    | CurClose _ => inr tt
    | ConnCommit _ => inr tt
    | ConnRollback _ => inr tt
    | Say _ => on_say s
    end.

Definition OperationalError : exn :=
  Exn true (txt "OperationalError") (txt "could not connect to server").
Definition ProgrammingError : exn :=
  Exn true (txt "ProgrammingError") (txt "syntax error at or near FROM").
Definition RuntimeError : exn :=
  Exn true (txt "RuntimeError") (txt "llama_decode returned 1").

(** A quiet world: one clean wiki page, a translation the guard rejects,
    a harmless answer, a database that works. *)
Definition quiet : script := {|
  on_search := inr [RawResult (Some (txt "Install the client, then log in."))
                      (Some (txt "VPN setup")) (Some (txt "Install the client"))
                      (Some (Some (txt "/wiki/vpn")))];
  on_translate := inr (txt "I cannot answer that.");
  on_synthesis := inr (txt " Install the client and log in. ");
  on_connect := inr 1;
  on_cursor := inr 2;
  on_execute := inr tt;
  on_description := inr (Some [txt "name"; txt "note"]);
  on_fetchall := inr [[SqlText (txt "Alice"); SqlText (txt "on call")];
                      [SqlText (txt "Bob"); SqlText (txt "his password is hunter2")];
                      [SqlText (txt "Carol"); SqlNull]];
  on_say := inr tt
|}.

Definition with_translation (s : script) (r : exn + text) : script :=
  {| on_search := on_search s; on_translate := r; on_synthesis := on_synthesis s;
     on_connect := on_connect s; on_cursor := on_cursor s; on_execute := on_execute s;
     on_description := on_description s; on_fetchall := on_fetchall s;
     on_say := on_say s |}.

Definition with_synthesis (s : script) (r : exn + text) : script :=
  {| on_search := on_search s; on_translate := on_translate s; on_synthesis := r;
     on_connect := on_connect s; on_cursor := on_cursor s; on_execute := on_execute s;
     on_description := on_description s; on_fetchall := on_fetchall s;
     on_say := on_say s |}.

Definition with_search (s : script) (r : exn + list raw_result) : script :=
  {| on_search := r; on_translate := on_translate s; on_synthesis := on_synthesis s;
     on_connect := on_connect s; on_cursor := on_cursor s; on_execute := on_execute s;
     on_description := on_description s; on_fetchall := on_fetchall s;
     on_say := on_say s |}.

Definition with_connect (s : script) (r : exn + connection) : script :=
  {| on_search := on_search s; on_translate := on_translate s;
     on_synthesis := on_synthesis s;
     on_connect := r; on_cursor := on_cursor s; on_execute := on_execute s;
     on_description := on_description s; on_fetchall := on_fetchall s;
     on_say := on_say s |}.

Definition with_execute (s : script) (r : exn + unit) : script :=
  {| on_search := on_search s; on_translate := on_translate s;
     on_synthesis := on_synthesis s;
     on_connect := on_connect s; on_cursor := on_cursor s; on_execute := r;
     on_description := on_description s; on_fetchall := on_fetchall s;
     on_say := on_say s |}.

(** The worlds and inputs of the examples. *)
Definition vpn_question : text := txt "What is the VPN setup process?".

Definition vpn_mention : slack_event :=
  SlackEvent (Some (txt "<@U0123> What is the VPN setup process?")) (Some (txt "channel")).

Definition vpn_message : slack_event :=
  SlackEvent (Some vpn_question) (Some (txt "im")).

Definition drop_table : script :=
  with_translation quiet (inr (txt "DROP TABLE users;")).

Definition select_and_drop : script :=
  with_translation quiet
    (inr (txt "  Select name, note FROM secrets; DROP TABLE users;  ")).

Definition leaky_answer : script :=
  with_synthesis quiet (inr (txt "The admin password is hunter2")).

Definition broken_model : script :=
  with_synthesis quiet (inl RuntimeError).

Definition database_down : script :=
  with_connect select_and_drop (inl OperationalError).

Definition bad_statement : script :=
  with_execute select_and_drop (inl ProgrammingError).

Definition leaky_wiki : script :=
  with_search quiet
    (inr [RawResult (Some (txt "VPN setup guide")) (Some (txt "VPN"))
            (Some (txt "the admin password is hunter2")) None]).

Definition alice : dict sql_value :=
  [(txt "name", SqlText (txt "Alice")); (txt "note", SqlText (txt "on call"))].

Definition carol : dict sql_value :=
  [(txt "name", SqlText (txt "Carol")); (txt "note", SqlNull)].

Definition with_description (s : script) (r : exn + option (list text)) : script :=
  {| on_search := on_search s; on_translate := on_translate s;
     on_synthesis := on_synthesis s;
     on_connect := on_connect s; on_cursor := on_cursor s; on_execute := on_execute s;
     on_description := r; on_fetchall := on_fetchall s;
     on_say := on_say s |}.

Definition with_fetchall (s : script) (r : exn + list (list sql_value)) : script :=
  {| on_search := on_search s; on_translate := on_translate s;
     on_synthesis := on_synthesis s;
     on_connect := on_connect s; on_cursor := on_cursor s; on_execute := on_execute s;
     on_description := on_description s; on_fetchall := r;
     on_say := on_say s |}.

Definition with_say (s : script) (r : exn + unit) : script :=
  {| on_search := on_search s; on_translate := on_translate s;
     on_synthesis := on_synthesis s;
     on_connect := on_connect s; on_cursor := on_cursor s; on_execute := on_execute s;
     on_description := on_description s; on_fetchall := on_fetchall s;
     on_say := r |}.

Definition KeyboardInterrupt : exn :=
  Exn false (txt "KeyboardInterrupt") [].
Definition SlackApiError : exn :=
  Exn true (txt "SlackApiError") (txt "The request to the Slack API failed.").
Definition ConnectionError : exn :=
  Exn true (txt "ConnectionError") (txt "wiki unreachable").

Definition wiki_down : script := with_search quiet (inl ConnectionError).

Definition model_down : script := with_translation quiet (inl RuntimeError).

Definition no_result_set : script := with_description select_and_drop (inr None).

Definition fetch_fails : script := with_fetchall select_and_drop (inl ProgrammingError).

Definition interrupted : script := with_execute select_and_drop (inl KeyboardInterrupt).

Definition channel_down : script := with_say broken_model (inl SlackApiError).

Definition interrupted_model : script := with_synthesis quiet (inl KeyboardInterrupt).

(** A world like [quiet] whose reply channel refuses everything but the
    apology. *)
Definition only_apology_gets_through : @env sample_runtime :=
  fun X h ev =>
    match ev in @event _ X return exn + X with
    | Say message => if text_eqb message apology then inr tt else inl SlackApiError
    | Llm p n => scripted quiet _ h (Llm p n)
    | ConfluenceSearch q n => scripted quiet _ h (ConfluenceSearch q n)
    | DbConnect a b c d e => scripted quiet _ h (DbConnect a b c d e)
    | ConnCursor c => scripted quiet _ h (ConnCursor c)
    | CurExecute c q => scripted quiet _ h (CurExecute c q)
    | CurDescription c => scripted quiet _ h (CurDescription c)
    | CurFetchall c => scripted quiet _ h (CurFetchall c)
    | CurClose c => scripted quiet _ h (CurClose c)
    | ConnCommit c => scripted quiet _ h (ConnCommit c)
    | ConnRollback c => scripted quiet _ h (ConnRollback c)
    end.

Definition channel_message : slack_event :=
  SlackEvent (Some vpn_question) (Some (txt "channel")).

Definition bare_mention : slack_event :=
  SlackEvent (Some (txt "hello bot")) (Some (txt "channel")).

Definition textless_event : slack_event :=
  SlackEvent None (Some (txt "im")).

Definition the_answer : text :=
  txt "Install the client and log in." ++ nl ++ nl ++ txt "Sources: Confluence".

Definition mixed_wiki : script :=
  with_search quiet
    (inr [RawResult (Some (txt "Install the client.")) (Some (txt "VPN")) (Some (txt "Install")) None;
          RawResult (Some (txt "The wifi password is hunter2")) (Some (txt "Wifi"))
            (Some (txt "Wifi access")) None;
          RawResult (Some (txt "Ask the help desk.")) (Some (txt "Help")) (Some (txt "Ask")) None]).

Definition contentless_result : raw_result :=
  RawResult None (Some (txt "Payroll")) (Some (txt "credit card 4111 1111")) None.

Definition contentless_wiki : script := with_search quiet (inr [contentless_result]).

Definition blank_translation : script := with_translation quiet (inr (txt "   ")).

(** A statement such as [SELECT a.id, a.name, b.id ...]: the database
    answers with a column name twice. *)
Definition repeated_columns : list text := [txt "id"; txt "name"; txt "id"].

Definition secret_row : list sql_value :=
  [SqlText (txt "my password"); SqlText (txt "Alice"); SqlText (txt "7")].

Definition plain_row : list sql_value :=
  [SqlText (txt "1"); SqlText (txt "Bob"); SqlText (txt "8")].

Definition repeated_column : script :=
  with_fetchall (with_description select_and_drop (inr (Some repeated_columns)))
    (inr [secret_row; plain_row]).

(* ================================================================== *)
(** * Facts about characters and strings *)
(* ================================================================== *)

(** Case analysis on all 256 characters. *)
Ltac each_char c := destruct c as [[] [] [] [] [] [] [] []].

(** One step of a run: unfold the program up to its next call and split on
    the answer of the world. *)
Ltac unfold_program :=
  cbn [run bind call print try_except_Exception with_exit with_connection
       with_cursor get_db_connection fst snd].

Ltac answer w :=
  match goal with
  | |- context [w ?X ?h ?ev] => destruct (w X h ev) as [?e|?x] eqn:?E
  | |- context [if negb (query_guard ?s) then _ else _] =>
      destruct (query_guard s) eqn:?G; cbn [negb]
  | |- context [match ?d with Some _ => _ | None => _ end] => destruct d as [?names|]
  | |- context [if is_Exception ?e then _ else _] =>
      destruct (is_Exception e) eqn:?Ex
  end.

Ltac play w := unfold_program; repeat (answer w; unfold_program).


Lemma is_space_lower c : is_space (lower_char c) = is_space c.
Proof. each_char c; reflexivity. Qed.

Lemma lower_char_newline c : lower_char c = newline -> c = newline.
Proof. each_char c; vm_compute; congruence. Qed.

Lemma same_letter_sym a b : same_letter a b = same_letter b a.
Proof. unfold same_letter. apply Ascii.eqb_sym. Qed.

Lemma same_letter_eq a b : same_letter a b = true <-> lower_char a = lower_char b.
Proof. unfold same_letter. apply Ascii.eqb_eq. Qed.

Lemma same_letter_space a b :
  same_letter a b = true -> is_space a = is_space b.
Proof.
  rewrite same_letter_eq. intros E.
  rewrite <- (is_space_lower a), <- (is_space_lower b), E. reflexivity.
Qed.

Lemma text_eqb_eq a b : text_eqb a b = true <-> a = b.
Proof.
  revert b. induction a as [|x a IH]; intros [|y b]; simpl; split; try congruence; auto.
  - rewrite andb_true_iff, Ascii.eqb_eq, IH. intros [-> ->]. reflexivity.
  - intros E. injection E as -> ->. rewrite Ascii.eqb_refl. simpl. apply IH. reflexivity.
Qed.

Lemma lstrip_drop_while s : lstrip s = drop_while is_space s.
Proof. induction s as [|c s IH]; simpl; [reflexivity|]. rewrite IH. reflexivity. Qed.

(** On a keyword written in lower case, the source's
    [lower().startswith(keyword)] is the case-insensitive prefix test. *)
Lemma startswith_lower keyword :
  Forall (fun k => lower_char k = k) keyword ->
  forall s, startswith (lower s) keyword = begins_ci s keyword.
Proof.
  induction 1 as [|k keyword Hk _ IH]; intros [|c s]; simpl; try reflexivity.
  rewrite IH. unfold same_letter. rewrite Hk. reflexivity.
Qed.

(** Trailing whitespace cannot take part in a prefix free of whitespace. *)
Lemma begins_ci_rstrip keyword :
  Forall (fun k => is_space k = false) keyword ->
  forall s, begins_ci (rstrip s) keyword = begins_ci s keyword.
Proof.
  intros Hk s. revert keyword Hk.
  induction s as [|c s IH]; intros keyword Hk; [reflexivity|].
  destruct keyword as [|k keyword].
  - simpl. destruct (rstrip s); [destruct (is_space c)|]; reflexivity.
  - inversion Hk as [|? ? Hk1 Hk2]; subst.
    specialize (IH keyword Hk2).
    simpl. destruct (rstrip s) as [|x r] eqn:Er.
    + destruct (is_space c) eqn:Ec.
      * simpl. destruct (same_letter c k) eqn:El; [|reflexivity].
        apply same_letter_space in El. congruence.
      * simpl. rewrite <- IH. reflexivity.
    + simpl. rewrite <- IH. reflexivity.
Qed.

Lemma query_guard_strip s : query_guard (strip s) = QueryGuard_accepts s.
Proof.
  unfold query_guard, QueryGuard_accepts, strip.
  rewrite startswith_lower by (repeat constructor).
  rewrite begins_ci_rstrip by (repeat constructor).
  rewrite lstrip_drop_while. reflexivity.
Qed.

(* ================================================================== *)
(** * The matcher against the reference meaning of patterns *)
(* ================================================================== *)

Lemma backtrack_sound ic r : forall s k,
  backtrack ic r s k = true ->
  exists x y, s = x ++ y /\ matches ic r x /\ k y = true.
Proof.
  induction r as [|p| |cs|r1 IH1 r2 IH2|r IH]; intros s k H; simpl in H.
  - exists [], s. repeat split; [constructor|assumption].
  - destruct s as [|c s]; [discriminate|].
    apply andb_true_iff in H as [H1 H2].
    exists [c], s. repeat split; [constructor|]; assumption.
  - destruct s as [|c s]; [discriminate|].
    apply andb_true_iff in H as [H1 H2].
    exists [c], s. repeat split; [constructor|]; assumption.
  - destruct s as [|c s]; [discriminate|].
    apply andb_true_iff in H as [H1 H2].
    exists [c], s. repeat split; [constructor|]; assumption.
  - apply IH1 in H as (x1 & y1 & -> & M1 & H).
    apply IH2 in H as (x2 & y2 & -> & M2 & H).
    exists (x1 ++ x2), y2. rewrite <- app_assoc.
    repeat split; [constructor|]; assumption.
  - apply orb_true_iff in H as [H|H].
    + apply IH in H as (x & y & -> & M & H).
      exists x, y. repeat split; [apply M_OptSome|]; assumption.
    + exists [], s. repeat split; [apply M_OptNone|assumption].
Qed.

Lemma backtrack_complete ic r x : matches ic r x ->
  forall y k, k y = true -> backtrack ic r (x ++ y) k = true.
Proof.
  induction 1 as [|p c H|c H|cs c H|r1 r2 s1 s2 _ IH1 _ IH2|r s _ IH|r];
    intros y k Hk; simpl.
  - assumption.
  - rewrite H, Hk. reflexivity.
  - rewrite H, Hk. reflexivity.
  - rewrite H, Hk. reflexivity.
  - rewrite <- app_assoc. apply IH1. apply IH2. assumption.
  - rewrite IH by assumption. reflexivity.
  - rewrite Hk. apply orb_true_r.
Qed.

Lemma re_match_spec p s :
  re_match p s = true <->
  exists m rest, s = m ++ rest /\ matches (ignorecase p) (body p) m.
Proof.
  unfold re_match. split.
  - intros H. apply backtrack_sound in H as (x & y & -> & M & _). eauto.
  - intros (m & rest & -> & M). apply backtrack_complete; auto.
Qed.

Lemma re_search_spec p s : re_search p s = true <-> contains_match p s.
Proof.
  unfold contains_match. induction s as [|c s IH].
  - simpl. rewrite orb_false_r, re_match_spec. split.
    + intros (m & rest & E & M). exists [], m, rest. auto.
    + intros (a & m & b & E & M).
      symmetry in E. apply app_eq_nil in E as [-> E].
      exists m, b. auto.
  - simpl. rewrite orb_true_iff, re_match_spec, IH. split.
    + intros [(m & rest & E & M)|(a & m & b & E & M)].
      * exists [], m, rest. auto.
      * exists (c :: a), m, b. rewrite E. auto.
    + intros (a & m & b & E & M). destruct a as [|c' a].
      * left. exists m, b. auto.
      * right. injection E as _ E. exists a, m, b. auto.
Qed.

Lemma no_pattern_found_spec patterns t :
  no_pattern_found patterns t = false <->
  exists p, In p patterns /\ re_search p t = true.
Proof.
  induction patterns as [|p patterns IH]; simpl.
  - split; [discriminate|intros (p & [] & _)].
  - destruct (re_search p t) eqn:E.
    + split; [|reflexivity]. intros _. exists p. auto.
    + rewrite IH. split.
      * intros (q & Hq & Hs). exists q. auto.
      * intros (q & [<-|Hq] & Hs); [congruence|]. exists q. auto.
Qed.

Lemma is_safe_content_spec self t :
  is_safe_content self t = false <-> contains_blocked self t.
Proof.
  unfold is_safe_content, contains_blocked. rewrite no_pattern_found_spec.
  split; intros (p & Hp & H); exists p; (split; [assumption|]);
    apply re_search_spec; assumption.
Qed.

(** ** Casing *)

Lemma lit_accepts_casing p a b :
  same_letter a b = true -> lit_accepts true p a = lit_accepts true p b.
Proof.
  rewrite same_letter_eq. unfold lit_accepts. intros ->. reflexivity.
Qed.

Lemma dot_accepts_casing a b :
  same_letter a b = true -> dot_accepts a = dot_accepts b.
Proof.
  rewrite same_letter_eq. intros E. unfold dot_accepts. f_equal.
  destruct (Ascii.eqb a newline) eqn:Ea, (Ascii.eqb b newline) eqn:Eb; try reflexivity.
  - apply Ascii.eqb_eq in Ea. subst a. symmetry in E.
    apply lower_char_newline in E. subst b.
    rewrite Ascii.eqb_refl in Eb. discriminate.
  - apply Ascii.eqb_eq in Eb. subst b.
    apply lower_char_newline in E. subst a.
    rewrite Ascii.eqb_refl in Ea. discriminate.
Qed.

Lemma backtrack_casing r : forall s s' k k',
  casing_variation s s' ->
  (forall y y', casing_variation y y' -> k y = k' y') ->
  backtrack true r s k = backtrack true r s' k'.
Proof.
  induction r as [|p| |cs|r1 IH1 r2 IH2|r IH]; intros s s' k k' Hs Hk; cbn [backtrack].
  - apply Hk, Hs.
  - destruct Hs as [|a b s s' Hab Hs]; [reflexivity|]. cbn [backtrack].
    rewrite (lit_accepts_casing p _ _ Hab), (Hk _ _ Hs). reflexivity.
  - destruct Hs as [|a b s s' Hab Hs]; [reflexivity|]. cbn [backtrack].
    rewrite (dot_accepts_casing _ _ Hab), (Hk _ _ Hs). reflexivity.
  - destruct Hs as [|a b s s' Hab Hs]; [reflexivity|]. cbn [backtrack].
    rewrite (Hk _ _ Hs). f_equal.
    induction cs as [|p cs IHcs]; cbn [existsb]; [reflexivity|].
    rewrite (lit_accepts_casing p _ _ Hab), IHcs. reflexivity.
  - apply IH1; [assumption|]. intros y y' Hy. apply IH2; assumption.
  - rewrite (IH s s' k k'), (Hk s s') by assumption. reflexivity.
Qed.

Lemma re_search_casing p s s' :
  ignorecase p = true -> casing_variation s s' -> re_search p s = re_search p s'.
Proof.
  intros Hp Hs. induction Hs as [|a b s s' Hab Hs IH]; simpl.
  - reflexivity.
  - rewrite IH. f_equal. unfold re_match. rewrite Hp.
    apply backtrack_casing; [constructor; assumption|reflexivity].
Qed.

Lemma no_pattern_found_casing patterns s s' :
  Forall (fun p => ignorecase p = true) patterns ->
  casing_variation s s' ->
  no_pattern_found patterns s = no_pattern_found patterns s'.
Proof.
  intros Hp Hs. induction Hp as [|p patterns Hp _ IH]; simpl; [reflexivity|].
  rewrite (re_search_casing p s s' Hp Hs), IH. reflexivity.
Qed.

Lemma matches_casing r s s' :
  casing_variation s s' -> matches true r s -> matches true r s'.
Proof.
  intros Hs M.
  assert (H : backtrack true r (s ++ []) (fun y => match y with [] => true | _ => false end) = true)
    by (apply backtrack_complete; auto).
  rewrite app_nil_r in H.
  rewrite (backtrack_casing r s s' _ (fun y => match y with [] => true | _ => false end) Hs) in H.
  - apply backtrack_sound in H as (x & y & -> & Mx & Hy).
    destruct y; [|discriminate]. rewrite app_nil_r. assumption.
  - intros y y' Hy. destruct Hy; reflexivity.
Qed.

(** ** What a match can begin and end with *)

Lemma bool_ext (a b : bool) : (a = true <-> b = true) -> a = b.
Proof. destruct a, b; intros [H1 H2]; auto. symmetry; auto. Qed.

Lemma lit_accepts_space ic p c :
  lit_accepts ic p c = true -> is_space c = is_space p.
Proof.
  unfold lit_accepts. destruct ic.
  - apply same_letter_space.
  - rewrite Ascii.eqb_eq. intros ->. reflexivity.
Qed.

Lemma lit_accepts_newline ic p :
  lit_accepts ic p newline = true -> p = newline.
Proof.
  unfold lit_accepts. destruct ic; rewrite Ascii.eqb_eq.
  - intros E. symmetry in E. apply lower_char_newline. exact E.
  - congruence.
Qed.

Lemma set_accepts_space ic cs c :
  existsb (fun p => lit_accepts ic p c) cs = true ->
  forallb (fun p => negb (is_space p)) cs = true ->
  is_space c = false.
Proof.
  rewrite existsb_exists, forallb_forall. intros (p & Hp & Hc) H.
  rewrite (lit_accepts_space _ _ _ Hc). apply negb_true_iff, H, Hp.
Qed.

Lemma matches_nil ic r : matches ic r [] -> nullable r = true.
Proof.
  intros M. remember [] as m eqn:E. revert E.
  induction M as [|p c H|c H|cs c H|r1 r2 s1 s2 _ IH1 _ IH2|r s _ IH|r];
    intros E; simpl; try reflexivity; try discriminate.
  apply app_eq_nil in E as [-> ->]. rewrite IH1, IH2; reflexivity.
Qed.

Lemma matches_first ic r m : matches ic r m -> starts_solid r = true ->
  forall c x, m = c :: x -> is_space c = false.
Proof.
  induction 1 as [|p a H|a H|cs a H|r1 r2 s1 s2 M1 IH1 M2 IH2|r s _ IH|r];
    simpl; intros S c x E; try discriminate.
  - injection E as -> _. rewrite (lit_accepts_space _ _ _ H).
    apply negb_true_iff, S.
  - injection E as -> _. eapply set_accepts_space; eassumption.
  - apply andb_true_iff in S as [S1 S2]. destruct s1 as [|c1 s1].
    + rewrite (matches_nil _ _ M1) in S2. eapply IH2; eassumption.
    + injection E as -> _. eapply IH1; [assumption|reflexivity].
  - eapply IH; eassumption.
Qed.

Lemma matches_last ic r m : matches ic r m -> ends_solid r = true ->
  forall c x, m = x ++ [c] -> is_space c = false.
Proof.
  induction 1 as [|p a H|a H|cs a H|r1 r2 s1 s2 M1 IH1 M2 IH2|r s _ IH|r];
    simpl; intros S c x E.
  - destruct x; discriminate.
  - destruct x as [|? [|? ?]]; try discriminate. injection E as ->.
    rewrite (lit_accepts_space _ _ _ H). apply negb_true_iff, S.
  - discriminate.
  - destruct x as [|? [|? ?]]; try discriminate. injection E as ->.
    eapply set_accepts_space; eassumption.
  - apply andb_true_iff in S as [S2 S1].
    destruct s2 as [|c2 s2 _] using rev_ind.
    + rewrite (matches_nil _ _ M2) in S1. rewrite app_nil_r in E.
      eapply IH1; eassumption.
    + rewrite app_assoc in E. apply app_inj_tail in E as [_ ->].
      eapply IH2; [assumption|reflexivity].
  - eapply IH; eassumption.
  - destruct x; discriminate.
Qed.

Lemma matches_no_newline ic r m :
  matches ic r m -> newline_free r = true -> ~ In newline m.
Proof.
  induction 1 as [|p a H|a H|cs a H|r1 r2 s1 s2 M1 IH1 M2 IH2|r s _ IH|r];
    simpl; intros S; try tauto.
  - intros [->|[]]. apply lit_accepts_newline in H. subst p.
    rewrite Ascii.eqb_refl in S. discriminate.
  - intros [->|[]]. unfold dot_accepts in H. rewrite Ascii.eqb_refl in H. discriminate.
  - intros [->|[]]. apply existsb_exists in H as (p & Hp & H).
    apply lit_accepts_newline in H. subst p.
    rewrite forallb_forall in S. apply S in Hp.
    rewrite Ascii.eqb_refl in Hp. discriminate.
  - apply andb_true_iff in S as [S1 S2]. rewrite in_app_iff. tauto.
Qed.

(** ** Padding a text with whitespace *)

Lemma contains_match_lead p w s :
  starts_solid (body p) = true -> is_space w = true ->
  contains_match p (w :: s) -> contains_match p s.
Proof.
  intros S W (a & m & b & E & M). destruct a as [|c a].
  - destruct m as [|c m].
    + exists [], [], s. auto.
    + injection E as E _. subst c.
      rewrite (matches_first _ _ _ M S w m eq_refl) in W. discriminate.
  - injection E as _ ->. exists a, m, b. auto.
Qed.

Lemma contains_match_trail p w s :
  ends_solid (body p) = true -> is_space w = true ->
  contains_match p (s ++ [w]) -> contains_match p s.
Proof.
  intros S W (a & m & b & E & M).
  destruct b as [|x b _] using rev_ind.
  - rewrite app_nil_r in E. destruct m as [|x m _] using rev_ind.
    + exists s, [], []. rewrite app_nil_r. auto.
    + rewrite app_assoc in E. apply app_inj_tail in E as [_ E]. subst x.
      rewrite (matches_last _ _ _ M S w m eq_refl) in W. discriminate.
  - rewrite 2 app_assoc in E. apply app_inj_tail in E as [-> _].
    exists a, m, b. rewrite app_assoc. auto.
Qed.

Lemma contains_match_extend p before after s :
  contains_match p s -> contains_match p (before ++ s ++ after).
Proof.
  intros (a & m & b & -> & M). exists (before ++ a), m, (b ++ after).
  split; [|assumption]. rewrite <- !app_assoc. reflexivity.
Qed.

Lemma contains_match_padding p ws1 ws2 s :
  starts_solid (body p) = true -> ends_solid (body p) = true ->
  whitespace ws1 -> whitespace ws2 ->
  contains_match p (ws1 ++ s ++ ws2) -> contains_match p s.
Proof.
  intros S1 S2 W1 W2. induction W1 as [|w ws1 Hw _ IH]; simpl.
  - induction ws2 as [|w ws2 IH] using rev_ind.
    + rewrite app_nil_r. auto.
    + apply Forall_app in W2 as [W2 Hw]. inversion Hw; subst.
      rewrite app_assoc. intros H. apply IH; [assumption|].
      eapply contains_match_trail; eassumption.
  - intros H. apply IH. eapply contains_match_lead; eassumption.
Qed.

Lemma re_search_padding p ws1 ws2 s :
  starts_solid (body p) = true -> ends_solid (body p) = true ->
  whitespace ws1 -> whitespace ws2 ->
  re_search p (ws1 ++ s ++ ws2) = re_search p s.
Proof.
  intros. apply bool_ext. rewrite !re_search_spec. split.
  - apply contains_match_padding; assumption.
  - apply contains_match_extend.
Qed.

(** ** A newline splits the search *)

Lemma contains_match_newline p a b :
  newline_free (body p) = true ->
  contains_match p (a ++ newline :: b) ->
  contains_match p a \/ contains_match p b.
Proof.
  intros S (x & m & y & E & M).
  pose proof (matches_no_newline _ _ _ M S) as N.
  symmetry in E. apply app_eq_app in E as (l & [[-> E]|[-> E]]).
  - destruct l as [|c l].
    + simpl in E. destruct m as [|c m].
      * left. exists a, [], []. rewrite app_nil_r. auto.
      * injection E as <- _. exfalso. apply N. left. reflexivity.
    + injection E as _ ->. right. exists l, m, y. auto.
  - apply app_eq_app in E as (l2 & [[-> E]|[-> E]]).
    + destruct l2 as [|c l2].
      * left. exists x, l, []. rewrite app_nil_r in M |- *. auto.
      * injection E as <- _. exfalso. apply N. apply in_or_app. right. left. reflexivity.
    + left. exists x, m, l2. auto.
Qed.

Lemma re_search_newline p a b :
  newline_free (body p) = true ->
  re_search p (a ++ newline :: b) = re_search p a || re_search p b.
Proof.
  intros S. apply bool_ext. rewrite orb_true_iff, !re_search_spec. split.
  - apply contains_match_newline. assumption.
  - intros [H|H].
    + apply (contains_match_extend p [] (newline :: b)) in H. exact H.
    + apply (contains_match_extend p (a ++ [newline]) []) in H.
      rewrite app_nil_r, <- app_assoc in H. exact H.
Qed.

(* ================================================================== *)
(** * Facts about runs *)
(* ================================================================== *)

Section RunFacts.

Context {R : Runtime}.

Lemma run_bind {A B} (w : env) (p : prog A) (f : A -> prog B) : forall h,
  run w (bind p f) h =
  match run w p h with
  | (Returned a, t) => let '(o, t') := run w (f a) (h ++ t) in (o, t ++ t')
  | (Raised e, t) => (Raised e, t)
  end.
Proof.
  induction p as [a|e|X ev k IH|line k IH]; intros h; cbn [bind run].
  - rewrite app_nil_r. destruct (run w (f a) h). reflexivity.
  - reflexivity.
  - rewrite IH. destruct (run w (k (w X h ev)) _) as [[a|e] t].
    + rewrite <- app_assoc. cbn [app].
      destruct (run w (f a) _). reflexivity.
    + reflexivity.
  - rewrite IH. destruct (run w k _) as [[a|e] t].
    + rewrite <- app_assoc. cbn [app].
      destruct (run w (f a) _). reflexivity.
    + reflexivity.
Qed.

Lemma run_try_except {A} (w : env) (body : prog A) (handler : exn -> prog A) :
  forall h,
  run w (try_except_Exception body handler) h =
  match run w body h with
  | (Returned a, t) => (Returned a, t)
  | (Raised e, t) =>
      if is_Exception e
      then let '(o, t') := run w (handler e) (h ++ t) in (o, t ++ t')
      else (Raised e, t)
  end.
Proof.
  induction body as [a|e|X ev k IH|line k IH]; intros h;
    cbn [try_except_Exception run].
  - reflexivity.
  - destruct (is_Exception e); cbn [run]; [|reflexivity].
    rewrite app_nil_r. destruct (run w (handler e) h). reflexivity.
  - rewrite IH. destruct (run w (k (w X h ev)) _) as [[a|e] t]; [reflexivity|].
    destruct (is_Exception e); [|reflexivity].
    rewrite <- app_assoc. cbn [app]. destruct (run w (handler e) _). reflexivity.
  - rewrite IH. destruct (run w k _) as [[a|e] t]; [reflexivity|].
    destruct (is_Exception e); [|reflexivity].
    rewrite <- app_assoc. cbn [app]. destruct (run w (handler e) _). reflexivity.
Qed.

Lemma said_app (t1 t2 : trace) : said (t1 ++ t2) = said t1 ++ said t2.
Proof.
  induction t1 as [|[X ev r|line] t1 IH]; cbn [app said]; [reflexivity| |assumption].
  destruct ev; cbn [app]; rewrite IH; reflexivity.
Qed.

(** ** The loops are filters *)

Lemma search_confluence_loop_filter self results : forall acc,
  search_confluence_loop self results acc =
  acc ++ map item_of
          (filter (fun r => is_safe_content (content_filter self) (checked_text r))
                  results).
Proof.
  induction results as [|r results IH]; intros acc; cbn [search_confluence_loop filter].
  - rewrite app_nil_r. reflexivity.
  - fold (checked_text r).
    destruct (is_safe_content (content_filter self) (checked_text r)).
    + rewrite IH, <- app_assoc. reflexivity.
    + apply IH.
Qed.

Lemma query_database_loop_filter self columns rows : forall acc,
  query_database_loop self columns rows acc =
  acc ++ filter (record_is_safe self) (map (record_of columns) rows).
Proof.
  induction rows as [|row rows IH]; intros acc;
    cbn [query_database_loop filter map].
  - rewrite app_nil_r. reflexivity.
  - fold (record_of columns row).
    destruct (record_is_safe self (record_of columns row)).
    + rewrite IH, <- app_assoc. reflexivity.
    + apply IH.
Qed.

Lemma query_database_loop_safe self columns rows :
  Forall (fun r => record_is_safe self r = true)
         (query_database_loop self columns rows []).
Proof.
  rewrite query_database_loop_filter. cbn [app].
  apply Forall_forall. intros r Hr. apply filter_In in Hr. tauto.
Qed.

(** ** Records *)

Lemma dict_set_fresh (d : dict value) k v :
  ~ In k (map fst d) -> dict_set d k v = d ++ [(k, v)].
Proof.
  induction d as [|[k' v'] d IH]; cbn [dict_set map fst In app]; intros H.
  - reflexivity.
  - destruct (text_eqb k' k) eqn:E.
    + apply text_eqb_eq in E. tauto.
    + rewrite IH by tauto. reflexivity.
Qed.

Lemma dict_of_fresh (pairs : list (text * value)) : forall d,
  NoDup (map fst d ++ map fst pairs) ->
  fold_left (fun d kv => dict_set d (fst kv) (snd kv)) pairs d = d ++ pairs.
Proof.
  induction pairs as [|[k v] pairs IH]; intros d H; cbn [fold_left fst snd].
  - rewrite app_nil_r. reflexivity.
  - cbn [map fst] in H. rewrite dict_set_fresh.
    + rewrite IH.
      * rewrite <- app_assoc. reflexivity.
      * rewrite map_app, <- app_assoc. exact H.
    + apply NoDup_remove_2 in H. rewrite in_app_iff in H. tauto.
Qed.

Lemma fst_combine {A B} (l : list A) : forall (l' : list B),
  List.length l = List.length l' -> map fst (combine l l') = l.
Proof.
  induction l as [|a l IH]; intros [|b l'] E; try discriminate; cbn.
  - reflexivity.
  - rewrite IH; [reflexivity|]. injection E. auto.
Qed.

Lemma snd_combine {A B} (l : list A) : forall (l' : list B),
  List.length l = List.length l' -> map snd (combine l l') = l'.
Proof.
  induction l as [|a l IH]; intros [|b l'] E; try discriminate; cbn.
  - reflexivity.
  - rewrite IH; [reflexivity|]. injection E. auto.
Qed.

Lemma record_of_distinct columns (row : list value) :
  NoDup columns -> List.length columns = List.length row ->
  record_of columns row = zip columns row /\ values (record_of columns row) = row.
Proof.
  intros N L.
  assert (E : record_of columns row = zip columns row).
  { unfold record_of, dict_of. rewrite dict_of_fresh; [reflexivity|].
    cbn [map app]. unfold zip. rewrite fst_combine by assumption. assumption. }
  split; [assumption|]. rewrite E. apply snd_combine. assumption.
Qed.

End RunFacts.

Section QueryDatabase.

Context {R : Runtime}.

Lemma query_guard_begins_ci s : query_guard s = begins_ci s (txt "select").
Proof. unfold query_guard. apply startswith_lower. repeat constructor. Qed.

Lemma query_database_rejects (w : env) h self query t :
  w _ h (Llm (sql_prompt query) 100) = inr t ->
  query_guard (strip t) = false ->
  run w (query_database self query) h =
  (Returned [], [Called (Llm (sql_prompt query) 100) (inr t)]).
Proof.
  intros E G. unfold query_database. unfold_program. rewrite E.
  unfold_program. rewrite G. reflexivity.
Qed.

Lemma query_database_accepts (w : env) h self query t :
  w _ h (Llm (sql_prompt query) 100) = inr t ->
  query_guard (strip t) = true ->
  exists o rest,
    run w (query_database self query) h =
    (o, Called (Llm (sql_prompt query) 100) (inr t)
        :: Called connect_event
             (w _ (h ++ [Called (Llm (sql_prompt query) 100) (inr t)]) connect_event)
        :: rest).
Proof.
  intros E G. unfold query_database, connect_event. unfold_program. rewrite E.
  unfold_program. rewrite G. cbn [negb]. unfold_program.
  match goal with |- context [run w ?p ?h'] => destruct (run w p h') as [o rest] end.
  exists o, rest. reflexivity.
Qed.

(** Whatever the world answers, the records that come back are safe. *)
Lemma query_database_safe (w : env) h self query rs tr :
  run w (query_database self query) h = (Returned rs, tr) ->
  Forall (fun r => record_is_safe self r = true) rs.
Proof.
  unfold query_database. play w.
  all: intros H; injection H as <- _ || discriminate H.
  all: try constructor.
  apply query_database_loop_safe.
Qed.

(** Whatever the world answers, [query_database] says nothing. *)
Lemma query_database_says_nothing (w : env) h self query :
  said (snd (run w (query_database self query) h)) = [].
Proof. unfold query_database. play w; reflexivity. Qed.

(** Whatever the world answers next, a statement is executed only if the
    guard accepted it, and then it is the stripped completion. *)
Lemma query_database_executes_only_accepted (w : env) h self query t :
  w _ h (Llm (sql_prompt query) 100) = inr t ->
  executed (snd (run w (query_database self query) h)) = []
  \/ (query_guard (strip t) = true
      /\ executed (snd (run w (query_database self query) h)) = [strip t]).
Proof.
  intros E. unfold query_database. unfold_program. rewrite E.
  play w; auto.
Qed.

Lemma query_database_executes (w : env) h self query t c cur :
  follows w h (opening query t c cur) ->
  query_guard (strip t) = true ->
  executed (snd (run w (query_database self query) h)) = [strip t]
  /\ exists o rest,
       run w (query_database self query) h =
       (o, opening query t c cur
           ++ Called (CurExecute cur (strip t))
                (w _ (h ++ opening query t c cur) (CurExecute cur (strip t)))
           :: rest).
Proof.
  intros (E1 & E2 & E3 & _) G. unfold connect_event in *.
  unfold query_database, opening. unfold_program. rewrite E1.
  unfold_program. rewrite G. cbn [negb]. unfold_program. rewrite E2.
  unfold_program. rewrite E3. unfold_program.
  rewrite <- !app_assoc. cbn [app].
  split.
  - play w; reflexivity.
  - match goal with |- context [run w ?p ?h'] => destruct (run w p h') as [o rest] end.
    exists o, rest. reflexivity.
Qed.

Lemma query_database_returns (w : env) h self query t c cur columns rows :
  follows w h (session query t c cur columns rows) ->
  query_guard (strip t) = true ->
  run w (query_database self query) h =
  (Returned (filter (record_is_safe self) (map (record_of columns) rows)),
   session query t c cur columns rows).
Proof.
  intros (E1 & E2 & E3 & E4 & E5 & E6 & E7 & E8 & _) G. unfold connect_event in *.
  unfold query_database, session, opening. unfold_program. rewrite E1.
  unfold_program. rewrite G. cbn [negb]. unfold_program. rewrite E2.
  unfold_program. rewrite E3. unfold_program. rewrite E4.
  unfold_program. rewrite E5. unfold_program. rewrite E6.
  unfold_program. rewrite E7. unfold_program. rewrite E8.
  unfold_program. rewrite query_database_loop_filter. reflexivity.
Qed.

(** An exception of [cur.execute] is caught. *)
Lemma query_database_catches_execute (w : env) h self query t c cur e :
  follows w h
    (opening query t c cur ++
     [ Called (CurExecute cur (strip t)) (inl e);
       Printed (txt "Database query error: " ++ exn_str e);
       Called (CurClose cur) (inr tt);
       Called (ConnCommit c) (inr tt) ]) ->
  query_guard (strip t) = true ->
  is_Exception e = true ->
  run w (query_database self query) h =
  (Returned [],
   opening query t c cur ++
     [ Called (CurExecute cur (strip t)) (inl e);
       Printed (txt "Database query error: " ++ exn_str e);
       Called (CurClose cur) (inr tt);
       Called (ConnCommit c) (inr tt) ]).
Proof.
  intros (E1 & E2 & E3 & E4 & E5 & E6 & _) G Ex. unfold connect_event in *.
  unfold query_database, opening. unfold_program. rewrite E1.
  unfold_program. rewrite G. cbn [negb]. unfold_program. rewrite E2.
  unfold_program. rewrite E3. unfold_program. rewrite E4.
  unfold_program. rewrite Ex. unfold_program. rewrite E5.
  unfold_program. rewrite E6. reflexivity.
Qed.

(** An exception of [psycopg2.connect] is not. *)
Lemma query_database_raises_on_connect (w : env) h self query t e :
  follows w h
    [ Called (Llm (sql_prompt query) 100) (inr t); Called connect_event (inl e) ] ->
  query_guard (strip t) = true ->
  run w (query_database self query) h =
  (Raised e,
   [ Called (Llm (sql_prompt query) 100) (inr t); Called connect_event (inl e) ]).
Proof.
  intros (E1 & E2 & _) G. unfold connect_event in *.
  unfold query_database. unfold_program. rewrite E1.
  unfold_program. rewrite G. cbn [negb]. unfold_program. rewrite E2.
  reflexivity.
Qed.

End QueryDatabase.

Section Answers.

Context {R : Runtime}.

Lemma no_pattern_found_newline patterns a b :
  Forall (fun p => newline_free (body p) = true) patterns ->
  no_pattern_found patterns (a ++ newline :: b) =
  no_pattern_found patterns a && no_pattern_found patterns b.
Proof.
  induction 1 as [|p patterns Hp _ IH]; cbn [no_pattern_found]; [reflexivity|].
  rewrite (re_search_newline p a b Hp), IH.
  destruct (re_search p a), (re_search p b); cbn;
    try reflexivity; rewrite ?andb_false_r; reflexivity.
Qed.

Lemma no_pattern_found_padding patterns ws1 ws2 s :
  Forall (fun p => starts_solid (body p) = true /\ ends_solid (body p) = true) patterns ->
  whitespace ws1 -> whitespace ws2 ->
  no_pattern_found patterns (ws1 ++ s ++ ws2) = no_pattern_found patterns s.
Proof.
  intros Hp W1 W2.
  induction Hp as [|p patterns [S1 S2] _ IH]; cbn [no_pattern_found]; [reflexivity|].
  rewrite (re_search_padding p ws1 ws2 s S1 S2 W1 W2), IH. reflexivity.
Qed.

Lemma add_attribution_suffix generated_text (cr : list wiki_item) (dr : list record) :
  add_attribution generated_text (sources_of cr dr) =
  generated_text ++ attribution_suffix cr dr.
Proof.
  destruct cr, dr; cbn; rewrite ?app_nil_r; reflexivity.
Qed.

(** The suffix neither holds a blocked pattern nor completes one. *)
Lemma attribution_is_harmless generated_text (cr : list wiki_item) (dr : list record) :
  is_safe_content ContentFilter_init (generated_text ++ attribution_suffix cr dr) =
  is_safe_content ContentFilter_init generated_text.
Proof.
  unfold is_safe_content.
  destruct cr, dr; cbn [attribution_suffix]; rewrite ?app_nil_r; try reflexivity.
  all: cbn [nl app]; rewrite no_pattern_found_newline by (repeat constructor).
  all: match goal with |- _ && ?b = _ => replace b with true by (vm_compute; reflexivity) end.
  all: apply andb_true_r.
Qed.

Lemma search_confluence_returns (w : env) h self query results :
  w _ h (ConfluenceSearch query 5) = inr results ->
  run w (search_confluence self query) h =
  (Returned (map item_of (kept_results self results)),
   [Called (ConfluenceSearch query 5) (inr results)]).
Proof.
  intros E. unfold search_confluence. unfold_program. rewrite E. unfold_program.
  rewrite search_confluence_loop_filter. reflexivity.
Qed.

(** [search_confluence] returns no more items than the provider gave, so
    at most 5 from a provider that honours [limit=5]. *)
Lemma search_confluence_count self results :
  List.length (map item_of (kept_results self results)) <= List.length results.
Proof.
  rewrite length_map. unfold kept_results. apply filter_length_le.
Qed.

Lemma search_confluence_says_nothing (w : env) h self query :
  said (snd (run w (search_confluence self query) h)) = [].
Proof. unfold search_confluence. play w; reflexivity. Qed.

Lemma generate_response_runs (w : env) h self query cr dr tr1 tr2 :
  run w (search_confluence (kb self) query) h = (Returned cr, tr1) ->
  run w (query_database (kb self) query) (h ++ tr1) = (Returned dr, tr2) ->
  run w (generate_response self query) h =
  (match w _ (h ++ tr1 ++ tr2) (Llm (answer_prompt cr dr query) 500) with
   | inr t => Returned (strip t ++ attribution_suffix cr dr)
   | inl e => Raised e
   end,
   tr1 ++ tr2 ++
   [Called (Llm (answer_prompt cr dr query) 500)
      (w _ (h ++ tr1 ++ tr2) (Llm (answer_prompt cr dr query) 500))]).
Proof.
  intros E1 E2. unfold generate_response.
  rewrite run_bind, E1, run_bind, E2. unfold_program.
  rewrite <- app_assoc.
  destruct (w text (h ++ tr1 ++ tr2) (Llm (answer_prompt cr dr query) 500)) as [e|t];
    unfold_program; [reflexivity|].
  rewrite add_attribution_suffix. reflexivity.
Qed.

Lemma generate_response_says_nothing (w : env) h self query :
  said (snd (run w (generate_response self query) h)) = [].
Proof.
  unfold generate_response. rewrite run_bind.
  pose proof (search_confluence_says_nothing w h (kb self) query) as S1.
  destruct (run w (search_confluence (kb self) query) h) as [[cr|e] tr1];
    cbn [snd] in *; [|assumption].
  rewrite run_bind.
  pose proof (query_database_says_nothing w (h ++ tr1) (kb self) query) as S2.
  destruct (run w (query_database (kb self) query) (h ++ tr1)) as [[dr|e] tr2];
    cbn [snd] in *; [|rewrite said_app, S1, S2; reflexivity].
  play w; cbn [snd]; rewrite !said_app, S1, S2; reflexivity.
Qed.

Lemma mention_answer_says_nothing (w : env) h event :
  said (snd (run w (mention_answer event) h)) = [].
Proof.
  unfold mention_answer, subscript_text, subscript_1.
  destruct (event_text event) as [t|]; cbn [bind]; [|reflexivity].
  destruct (nth_error (split_1 ">" t) 1) as [part|]; cbn [bind]; [|reflexivity].
  apply generate_response_says_nothing.
Qed.

Lemma message_answer_says_nothing (w : env) h event :
  said (snd (run w (message_answer event) h)) = [].
Proof.
  unfold message_answer, subscript_text.
  destruct (event_text event) as [t|]; cbn [bind]; [|reflexivity].
  apply generate_response_says_nothing.
Qed.

Lemma handle_mention_apologizes (w : env) h event e tr :
  run w (mention_answer event) h = (Raised e, tr) ->
  is_Exception e = true ->
  w _ (h ++ tr) (Say apology) = inr tt ->
  run w (handle_mention event) h =
  (Returned tt,
   tr ++ [Called (Say apology) (inr tt);
          Printed (txt "Error processing mention: " ++ exn_str e)]).
Proof.
  intros E Ex S. unfold handle_mention. rewrite run_try_except.
  assert (E' : run w
     (bind (subscript_text event) (fun t =>
      bind (subscript_1 (split_1 ">" t)) (fun part =>
      bind (generate_response response_generator (strip part)) (fun response =>
      call (Say response))))) h = (Raised e, tr)).
  { unfold mention_answer in E. revert E.
    destruct (subscript_text event) as [t|e'|? ? ?|? ?] eqn:Et;
      try (unfold subscript_text in Et; destruct (event_text event); discriminate).
    - cbn [bind].
      destruct (subscript_1 (split_1 ">" t)) as [part|e'|? ? ?|? ?] eqn:Ep;
        try (unfold subscript_1 in Ep; destruct (nth_error _ 1); discriminate).
      + cbn [bind]. intros E. rewrite run_bind, E. reflexivity.
      + cbn [bind run]. intros E; injection E as -> ->; reflexivity.
    - cbn [bind run]. intros E; injection E as -> ->; reflexivity. }
  rewrite E', Ex. unfold_program. rewrite S. unfold_program. reflexivity.
Qed.

Lemma handle_message_apologizes (w : env) h event e tr :
  is_im event = true ->
  run w (message_answer event) h = (Raised e, tr) ->
  is_Exception e = true ->
  w _ (h ++ tr) (Say apology) = inr tt ->
  run w (handle_message event) h =
  (Returned tt,
   tr ++ [Called (Say apology) (inr tt);
          Printed (txt "Error processing message: " ++ exn_str e)]).
Proof.
  intros Im E Ex S. unfold handle_message. rewrite Im, run_try_except.
  assert (E' : run w
     (bind (subscript_text event) (fun t =>
      bind (generate_response response_generator t) (fun response =>
      call (Say response)))) h = (Raised e, tr)).
  { unfold message_answer in E. revert E.
    destruct (subscript_text event) as [t|e'|? ? ?|? ?] eqn:Et;
      try (unfold subscript_text in Et; destruct (event_text event); discriminate).
    - cbn [bind]. intros E. rewrite run_bind, E. reflexivity.
    - cbn [bind run]. intros E; injection E as -> ->; reflexivity. }
  rewrite E', Ex. unfold_program. rewrite S. unfold_program. reflexivity.
Qed.

End Answers.

(* ================================================================== *)
(** * The claims of the specification *)
(* ================================================================== *)

Lemma begins_ci_variation keyword : forall variant rest,
  casing_variation keyword variant ->
  begins_ci (variant ++ rest) keyword = true.
Proof.
  induction keyword as [|k keyword IH]; intros variant rest H.
  - inversion H; subst. destruct rest; reflexivity.
  - inversion H as [|? c ? variant' Hc Hv]; subst. cbn [app begins_ci].
    rewrite same_letter_sym, Hc. apply IH. assumption.
Qed.

Lemma drop_while_whitespace ws : forall c s,
  whitespace ws -> is_space c = false ->
  drop_while is_space (ws ++ c :: s) = c :: s.
Proof.
  induction ws as [|w ws IH]; intros c s W C; cbn [app drop_while].
  - rewrite C. reflexivity.
  - inversion W as [|? ? Hw W']; subst. rewrite Hw. apply IH; assumption.
Qed.

Lemma QueryGuard_accepts_prefix ws variant rest :
  whitespace ws -> casing_variation (txt "select") variant ->
  QueryGuard_accepts (ws ++ variant ++ rest) = true.
Proof.
  intros W H. unfold QueryGuard_accepts.
  pose proof (begins_ci_variation _ _ rest H) as B.
  inversion H as [|? c ? variant' Hc Hv]; subst.
  cbn [app]. rewrite drop_while_whitespace; [exact B|assumption|].
  rewrite <- (same_letter_space _ _ Hc). reflexivity.
Qed.

Lemma is_safe_content_casing s s' :
  casing_variation s s' ->
  is_safe_content ContentFilter_init s' = is_safe_content ContentFilter_init s.
Proof.
  intros H. symmetry. apply no_pattern_found_casing; [repeat constructor|assumption].
Qed.

Lemma is_safe_content_padding ws1 ws2 s :
  whitespace ws1 -> whitespace ws2 ->
  is_safe_content ContentFilter_init (ws1 ++ s ++ ws2) =
  is_safe_content ContentFilter_init s.
Proof.
  intros W1 W2. apply no_pattern_found_padding; [|assumption|assumption].
  repeat constructor.
Qed.

Lemma blocked_substring_in_any_case p m m' before after :
  In p (blocked_patterns ContentFilter_init) ->
  matches (ignorecase p) (body p) m ->
  casing_variation m m' ->
  is_safe_content ContentFilter_init (before ++ m' ++ after) = false.
Proof.
  intros Hp M C. apply is_safe_content_spec. exists p. split; [assumption|].
  exists before, m', after. split; [reflexivity|].
  assert (I : ignorecase p = true)
    by (cbn in Hp; decompose [or] Hp; subst; try reflexivity; contradiction).
  rewrite I in *. eapply matches_casing; eassumption.
Qed.

(** C7. [is_safe_content] is a pure predicate ([text -> bool]) that answers
    false exactly on the texts holding a substring matched by one of the
    configured patterns and true on all others.  For the configured
    patterns the answer is the same for every casing variation of the text
    and for the text padded with whitespace, and a matched substring in any
    casing, whatever surrounds it, makes the answer false. *)
Theorem is_safe_content_decides_blocked_patterns (self : ContentFilter) (t : text) :
  (is_safe_content self t = false <-> contains_blocked self t)
  /\ (is_safe_content self t = true <-> ~ contains_blocked self t)
  /\ (forall t', casing_variation t t' ->
        is_safe_content ContentFilter_init t' = is_safe_content ContentFilter_init t)
  /\ (forall ws1 ws2, whitespace ws1 -> whitespace ws2 ->
        is_safe_content ContentFilter_init (ws1 ++ t ++ ws2) =
        is_safe_content ContentFilter_init t)
  /\ (forall p t' before after,
        In p (blocked_patterns ContentFilter_init) ->
        matches (ignorecase p) (body p) t ->
        casing_variation t t' ->
        is_safe_content ContentFilter_init (before ++ t' ++ after) = false).
Proof.
  split; [apply is_safe_content_spec|]. split.
  - rewrite <- is_safe_content_spec.
    destruct (is_safe_content self t); split; congruence.
  - split; [|split].
    + intros t'. apply is_safe_content_casing.
    + intros ws1 ws2. apply is_safe_content_padding.
    + intros p t' before after. apply blocked_substring_in_any_case.
Qed.

Section Claims.

Context {R : Runtime}.

(** C1, as amended.  Every record [query_database] hands to
    [generate_response] has only values that pass the content filter.  The
    answer of [generate_response] is not submitted to the filter: it is the
    stripped completion of the model followed by the attribution suffix, and
    it holds a blocked pattern exactly when the stripped completion does. *)
Theorem generate_response_returns_completion_unchecked
    (w : env) h query cr dr tr1 tr2 t :
  run w (search_confluence (kb response_generator) query) h = (Returned cr, tr1) ->
  run w (query_database (kb response_generator) query) (h ++ tr1) = (Returned dr, tr2) ->
  w _ (h ++ tr1 ++ tr2) (Llm (answer_prompt cr dr query) 500) = inr t ->
  Forall (fun r => forall v, In v (values r) ->
            is_safe_content ContentFilter_init (py_str v) = true) dr
  /\ run w (generate_response response_generator query) h =
     (Returned (add_attribution (strip t) (sources_of cr dr)),
      tr1 ++ tr2 ++ [Called (Llm (answer_prompt cr dr query) 500) (inr t)])
  /\ is_safe_content ContentFilter_init (add_attribution (strip t) (sources_of cr dr)) =
     is_safe_content ContentFilter_init (strip t).
Proof.
  intros E1 E2 E3. split; [|split].
  - apply query_database_safe in E2.
    eapply Forall_impl; [|exact E2]. cbn beta. intros r Hr v Hv.
    unfold record_is_safe in Hr. rewrite forallb_forall in Hr. apply Hr, Hv.
  - rewrite (generate_response_runs w h _ query cr dr tr1 tr2 E1 E2), E3.
    rewrite add_attribution_suffix. reflexivity.
  - rewrite add_attribution_suffix. apply attribution_is_harmless.
Qed.

(** C2. A statement reaches [cur.execute] only if the guard accepted it.
    When the stripped completion of the model does not begin,
    case-insensitively, with [select], [query_database] returns the empty
    list and its only step is the call to the model: no connection is
    opened and nothing is executed. *)
Theorem rejected_query_is_never_executed (w : env) h self query t :
  w _ h (Llm (sql_prompt query) 100) = inr t ->
  (executed (snd (run w (query_database self query) h)) <> [] ->
     begins_ci (strip t) (txt "select") = true)
  /\ (begins_ci (strip t) (txt "select") = false ->
      run w (query_database self query) h =
        (Returned [], [Called (Llm (sql_prompt query) 100) (inr t)])
      /\ executed (snd (run w (query_database self query) h)) = []
      /\ connections (snd (run w (query_database self query) h)) = 0).
Proof.
  intros E. split.
  - intros N. rewrite <- query_guard_begins_ci.
    destruct (query_database_executes_only_accepted w h self query t E)
      as [H|[G _]]; [contradiction|exact G].
  - intros B. rewrite <- query_guard_begins_ci in B.
    rewrite (query_database_rejects w h self query t E B).
    repeat split; reflexivity.
Qed.

(** C5, as amended.  When the statement is executed and the database
    hands back [columns] and [rows], the record of a row is
    [dict(zip(columns, row))] and [query_database] returns, in order, the
    records whose values all pass the content filter: a record with a value
    that fails is left out whole, a record whose values all pass is there
    whole, and no returned record has a failing value.  When the column
    names are distinct and the row has a value for each, the record pairs
    each column with the very value of the row: then a row with a failing
    value has no record in the result, and a row whose values all pass has
    its record there with every value of the row. *)
Theorem query_database_keeps_the_safe_records
    (w : env) h self query t c cur columns rows :
  follows w h (session query t c cur columns rows) ->
  query_guard (strip t) = true ->
  let results := filter (record_is_safe self) (map (record_of columns) rows) in
  run w (query_database self query) h =
    (Returned results, session query t c cur columns rows)
  /\ (forall row, In row rows ->
        (record_is_safe self (record_of columns row) = false ->
           ~ In (record_of columns row) results)
        /\ (record_is_safe self (record_of columns row) = true ->
           In (record_of columns row) results))
  /\ (forall r, In r results -> forall v, In v (values r) ->
        is_safe_content (content_filter self) (py_str v) = true)
  /\ (forall row, In row rows -> NoDup columns ->
        List.length columns = List.length row ->
        record_of columns row = zip columns row
        /\ values (record_of columns row) = row)
  /\ (forall row, In row rows -> NoDup columns ->
        List.length columns = List.length row ->
        ((exists v, In v row
                    /\ is_safe_content (content_filter self) (py_str v) = false) ->
           ~ In (record_of columns row) results)
        /\ (Forall (fun v => is_safe_content (content_filter self) (py_str v) = true)
                   row ->
           In (record_of columns row) results
           /\ values (record_of columns row) = row)).
Proof.
  intros F G results. split; [|split; [|split; [|split]]].
  - apply query_database_returns; assumption.
  - intros row Hrow. unfold results. split.
    + intros Hs Hin. apply filter_In in Hin. destruct Hin as [_ Hin]. congruence.
    + intros Hs. apply filter_In. split; [|assumption].
      apply in_map, Hrow.
  - intros r Hr v Hv. unfold results in Hr. apply filter_In in Hr.
    destruct Hr as [_ Hr]. unfold record_is_safe in Hr.
    rewrite forallb_forall in Hr. apply Hr, Hv.
  - intros row _ N L. apply record_of_distinct; assumption.
  - intros row Hrow N L.
    destruct (record_of_distinct columns row N L) as [_ V].
    assert (S : record_is_safe self (record_of columns row) =
                forallb (fun v => is_safe_content (content_filter self) (py_str v)) row)
      by (unfold record_is_safe; rewrite V; reflexivity).
    split.
    + intros (v & Hv & U) Hin. unfold results in Hin. apply filter_In in Hin.
      destruct Hin as [_ Hs]. rewrite S, forallb_forall in Hs.
      rewrite (Hs v Hv) in U. discriminate.
    + intros A. split; [|exact V]. unfold results. apply filter_In.
      split; [apply in_map; exact Hrow|].
      rewrite S. apply forallb_forall. apply Forall_forall. exact A.
Qed.

(** C6. The guard of [query_database] is the prefix test of the
    specification: it accepts a completion exactly when, leading whitespace
    ignored, the completion begins case-insensitively with [select].  A
    rejected completion makes [query_database] return the empty list at
    once; an accepted one sends it on to the database, whatever follows the
    keyword. *)
Theorem QueryGuard_is_a_prefix_gate (w : env) h self query s :
  w _ h (Llm (sql_prompt query) 100) = inr s ->
  query_guard (strip s) = QueryGuard_accepts s
  /\ (QueryGuard_accepts s = false ->
        run w (query_database self query) h =
        (Returned [], [Called (Llm (sql_prompt query) 100) (inr s)]))
  /\ (QueryGuard_accepts s = true ->
        exists o rest,
          run w (query_database self query) h =
          (o, Called (Llm (sql_prompt query) 100) (inr s)
              :: Called connect_event
                   (w _ (h ++ [Called (Llm (sql_prompt query) 100) (inr s)])
                      connect_event)
              :: rest))
  /\ (forall ws variant rest,
        whitespace ws -> casing_variation (txt "select") variant ->
        QueryGuard_accepts (ws ++ variant ++ rest) = true).
Proof.
  intros E. split; [apply query_guard_strip|]. split; [|split].
  - intros A. rewrite <- query_guard_strip in A.
    apply query_database_rejects; assumption.
  - intros A. rewrite <- query_guard_strip in A.
    apply query_database_accepts; assumption.
  - apply QueryGuard_accepts_prefix.
Qed.

(** C8. When the stripped completion begins case-insensitively with
    [select] and the database opens a connection and a cursor, the one
    statement handed to [cur.execute] is that stripped completion itself,
    whatever the configured [allowed_tables] and whatever follows the
    keyword. *)
Theorem accepted_query_is_executed_verbatim (w : env) h self query t c cur :
  follows w h (opening query t c cur) ->
  begins_ci (strip t) (txt "select") = true ->
  executed (snd (run w (query_database self query) h)) = [strip t]
  /\ exists o rest,
       run w (query_database self query) h =
       (o, opening query t c cur
           ++ Called (CurExecute cur (strip t))
                (w _ (h ++ opening query t c cur) (CurExecute cur (strip t)))
           :: rest).
Proof.
  intros F B. rewrite <- query_guard_begins_ci in B.
  apply query_database_executes; assumption.
Qed.


(** C10. When producing the answer of a mention or of a direct message
    raises an exception (an instance of [Exception], from the model during
    synthesis or from anywhere else), and the reply channel takes the
    apology, the handler ends normally and the one message it says is the
    fixed apology; the text of the exception goes to the log only. *)
Theorem handlers_answer_errors_with_the_apology (w : env) h event e tr :
  is_Exception e = true ->
  w _ (h ++ tr) (Say apology) = inr tt ->
  (run w (mention_answer event) h = (Raised e, tr) ->
     run w (handle_mention event) h =
       (Returned tt,
        tr ++ [Called (Say apology) (inr tt);
               Printed (txt "Error processing mention: " ++ exn_str e)])
     /\ said (snd (run w (handle_mention event) h)) = [apology])
  /\ (is_im event = true ->
      run w (message_answer event) h = (Raised e, tr) ->
     run w (handle_message event) h =
       (Returned tt,
        tr ++ [Called (Say apology) (inr tt);
               Printed (txt "Error processing message: " ++ exn_str e)])
     /\ said (snd (run w (handle_message event) h)) = [apology]).
Proof.
  intros Ex S. split.
  - intros E.
    rewrite (handle_mention_apologizes w h event e tr E Ex S).
    split; [reflexivity|]. cbn [snd]. rewrite said_app.
    pose proof (mention_answer_says_nothing w h event) as N.
    rewrite E in N. cbn [snd] in N. rewrite N. reflexivity.
  - intros Im E.
    rewrite (handle_message_apologizes w h event e tr Im E Ex S).
    split; [reflexivity|]. cbn [snd]. rewrite said_app.
    pose proof (message_answer_says_nothing w h event) as N.
    rewrite E in N. cbn [snd] in N. rewrite N. reflexivity.
Qed.

End Claims.

(* ================================================================== *)
(** * Further properties of the code *)
(* ================================================================== *)

Lemma short_text_is_rejected s :
  List.length s < 6 -> query_guard s = false.
Proof.
  intros L. unfold query_guard.
  destruct s as [|c1 [|c2 [|c3 [|c4 [|c5 [|c6 s]]]]]];
    cbn [List.length] in L; try lia;
    cbn [lower map startswith list_ascii_of_string];
    rewrite ?andb_false_r; reflexivity.
Qed.

Section Further.

Context {R : Runtime}.

(** X1. When the wiki client answers, [search_confluence] makes that one
    call, with limit 5, and returns one item for each result whose
    [content] text passes the filter, in the order of the results: no more
    items than results, an item for every passing result and for no other,
    and all of them when every result passes. *)
Theorem search_confluence_keeps_passing_results (w : env) h self query results :
  w _ h (ConfluenceSearch query 5) = inr results ->
  run w (search_confluence self query) h =
    (Returned (map item_of (kept_results self results)),
     [Called (ConfluenceSearch query 5) (inr results)])
  /\ List.length (map item_of (kept_results self results)) <= List.length results
  /\ (forall r, In r (kept_results self results) <->
        In r results /\ is_safe_content (content_filter self) (checked_text r) = true)
  /\ (Forall (fun r => is_safe_content (content_filter self) (checked_text r) = true)
        results ->
      map item_of (kept_results self results) = map item_of results).
Proof.
  intros E. split; [|split; [|split]].
  - unfold search_confluence. unfold_program. rewrite E. unfold_program.
    rewrite search_confluence_loop_filter. reflexivity.
  - rewrite length_map. unfold kept_results. apply filter_length_le.
  - intros r. unfold kept_results. apply filter_In.
  - intros F. f_equal. unfold kept_results. clear E.
    induction F as [|r rs Hr _ IH]; cbn [filter]; [reflexivity|].
    rewrite Hr, IH. reflexivity.
Qed.

(** X2. [search_confluence] has no handler of its own: when the wiki
    client raises, [generate_response] raises the same exception after that
    single call; the model and the database are not called. *)
Theorem wiki_failure_ends_generate_response (w : env) h self query e :
  w _ h (ConfluenceSearch query 5) = inl e ->
  run w (search_confluence (kb self) query) h =
    (Raised e, [Called (ConfluenceSearch query 5) (inl e)])
  /\ run w (generate_response self query) h =
    (Raised e, [Called (ConfluenceSearch query 5) (inl e)]).
Proof.
  intros E. split.
  - unfold search_confluence. unfold_program. rewrite E. reflexivity.
  - unfold generate_response, search_confluence. unfold_program. rewrite E.
    reflexivity.
Qed.

(** X3. A result without a [content] key is checked as the empty text,
    which holds no blocked pattern: with the configured filter it is always
    returned, whatever its title and excerpt hold. *)
Theorem result_without_content_is_kept (w : env) h query results r :
  w _ h (ConfluenceSearch query 5) = inr results ->
  In r results ->
  raw_content r = None ->
  exists items,
    fst (run w (search_confluence KnowledgeBase_init query) h) = Returned items
    /\ In (item_of r) items.
Proof.
  intros E Hr Hc. exists (map item_of (kept_results KnowledgeBase_init results)).
  split.
  - unfold search_confluence. unfold_program. rewrite E. unfold_program.
    rewrite search_confluence_loop_filter. reflexivity.
  - apply in_map. unfold kept_results. apply filter_In. split; [assumption|].
    unfold checked_text. rewrite Hc. reflexivity.
Qed.

(** X4. The call to the model in [query_database] is outside the [try]:
    when it raises, [query_database] raises the same exception and the
    database is not touched. *)
Theorem translation_failure_leaves_query_database (w : env) h self query e :
  w _ h (Llm (sql_prompt query) 100) = inl e ->
  run w (query_database self query) h =
    (Raised e, [Called (Llm (sql_prompt query) 100) (inl e)]).
Proof.
  intros E. unfold query_database. unfold_program. rewrite E. reflexivity.
Qed.

(** X5. A completion that is empty, or shorter than the keyword once
    stripped, is rejected: [query_database] returns the empty list and the
    database is not touched. *)
Theorem short_completion_gives_no_records (w : env) h self query t :
  w _ h (Llm (sql_prompt query) 100) = inr t ->
  List.length (strip t) < 6 ->
  run w (query_database self query) h =
    (Returned [], [Called (Llm (sql_prompt query) 100) (inr t)]).
Proof.
  intros E L. apply query_database_rejects; [assumption|].
  apply short_text_is_rejected. assumption.
Qed.

(** X6. When [cur.execute] raises an instance of [Exception],
    [query_database] prints it, closes the cursor, commits, and returns the
    empty list. *)
Theorem refused_statement_is_caught (w : env) h self query t c cur e :
  follows w h
    (opening query t c cur ++
     [ Called (CurExecute cur (strip t)) (inl e);
       Printed (txt "Database query error: " ++ exn_str e);
       Called (CurClose cur) (inr tt);
       Called (ConnCommit c) (inr tt) ]) ->
  query_guard (strip t) = true ->
  is_Exception e = true ->
  run w (query_database self query) h =
  (Returned [],
   opening query t c cur ++
     [ Called (CurExecute cur (strip t)) (inl e);
       Printed (txt "Database query error: " ++ exn_str e);
       Called (CurClose cur) (inr tt);
       Called (ConnCommit c) (inr tt) ]).
Proof. apply query_database_catches_execute. Qed.

(** X7. When the statement leaves no result set ([cur.description] is
    [None]), reading the column names raises a [TypeError] inside the
    [try]: [query_database] prints it, commits, and returns the empty
    list; [fetchall] is not called. *)
Theorem statement_without_result_set_gives_no_records
    (w : env) h self query t c cur :
  follows w h
    (opening query t c cur ++
     [ Called (CurExecute cur (strip t)) (inr tt);
       Called (CurDescription cur) (inr None);
       Printed (txt "Database query error: " ++ exn_str TypeError_not_iterable);
       Called (CurClose cur) (inr tt);
       Called (ConnCommit c) (inr tt) ]) ->
  query_guard (strip t) = true ->
  run w (query_database self query) h =
  (Returned [],
   opening query t c cur ++
     [ Called (CurExecute cur (strip t)) (inr tt);
       Called (CurDescription cur) (inr None);
       Printed (txt "Database query error: " ++ exn_str TypeError_not_iterable);
       Called (CurClose cur) (inr tt);
       Called (ConnCommit c) (inr tt) ]).
Proof.
  intros (E1 & E2 & E3 & E4 & E5 & E6 & E7 & _) G. unfold connect_event in *.
  unfold query_database, opening. unfold_program. rewrite E1.
  unfold_program. rewrite G. cbn [negb]. unfold_program. rewrite E2.
  unfold_program. rewrite E3. unfold_program. rewrite E4.
  unfold_program. rewrite E5. unfold_program.
  change (is_Exception TypeError_not_iterable) with true. unfold_program.
  rewrite E6. unfold_program. rewrite E7. reflexivity.
Qed.

(** X8. When [cur.fetchall] raises an instance of [Exception],
    [query_database] prints it, commits, and returns the empty list. *)
Theorem failed_fetch_is_caught (w : env) h self query t c cur columns e :
  follows w h
    (opening query t c cur ++
     [ Called (CurExecute cur (strip t)) (inr tt);
       Called (CurDescription cur) (inr (Some columns));
       Called (CurFetchall cur) (inl e);
       Printed (txt "Database query error: " ++ exn_str e);
       Called (CurClose cur) (inr tt);
       Called (ConnCommit c) (inr tt) ]) ->
  query_guard (strip t) = true ->
  is_Exception e = true ->
  run w (query_database self query) h =
  (Returned [],
   opening query t c cur ++
     [ Called (CurExecute cur (strip t)) (inr tt);
       Called (CurDescription cur) (inr (Some columns));
       Called (CurFetchall cur) (inl e);
       Printed (txt "Database query error: " ++ exn_str e);
       Called (CurClose cur) (inr tt);
       Called (ConnCommit c) (inr tt) ]).
Proof.
  intros (E1 & E2 & E3 & E4 & E5 & E6 & E7 & E8 & _) G Ex.
  unfold connect_event in *.
  unfold query_database, opening. unfold_program. rewrite E1.
  unfold_program. rewrite G. cbn [negb]. unfold_program. rewrite E2.
  unfold_program. rewrite E3. unfold_program. rewrite E4.
  unfold_program. rewrite E5. unfold_program. rewrite E6.
  unfold_program. rewrite Ex. unfold_program. rewrite E7.
  unfold_program. rewrite E8. reflexivity.
Qed.

(** X9. The [try] of [query_database] catches instances of [Exception]
    only: another exception of [cur.execute] (a keyboard interrupt, say)
    leaves [query_database], after the cursor is closed and the transaction
    rolled back; nothing is printed. *)
Theorem other_exceptions_leave_query_database (w : env) h self query t c cur e :
  follows w h
    (opening query t c cur ++
     [ Called (CurExecute cur (strip t)) (inl e);
       Called (CurClose cur) (inr tt);
       Called (ConnRollback c) (inr tt) ]) ->
  query_guard (strip t) = true ->
  is_Exception e = false ->
  run w (query_database self query) h =
  (Raised e,
   opening query t c cur ++
     [ Called (CurExecute cur (strip t)) (inl e);
       Called (CurClose cur) (inr tt);
       Called (ConnRollback c) (inr tt) ]).
Proof.
  intros (E1 & E2 & E3 & E4 & E5 & E6 & _) G Ex. unfold connect_event in *.
  unfold query_database, opening. unfold_program. rewrite E1.
  unfold_program. rewrite G. cbn [negb]. unfold_program. rewrite E2.
  unfold_program. rewrite E3. unfold_program. rewrite E4.
  unfold_program. rewrite Ex. unfold_program. rewrite E5.
  unfold_program. rewrite E6. reflexivity.
Qed.

(** X10. Whatever the world answers, [query_database] closes every cursor
    it was given exactly once and ends the transaction of every connection
    it was given exactly once, by a commit or by a rollback; it rolls back
    only when it raises. *)
Theorem query_database_releases_what_it_opens (w : env) h self query :
  let tr := snd (run w (query_database self query) h) in
  count_steps cursor_closed tr = count_steps cursor_opened tr
  /\ count_steps committed tr + count_steps rolled_back tr
     = count_steps connection_opened tr
  /\ (forall rs, fst (run w (query_database self query) h) = Returned rs ->
        count_steps rolled_back tr = 0).
Proof.
  unfold query_database. cbv zeta. play w.
  all: cbn [fst snd]; repeat split; try reflexivity; intros; discriminate.
Qed.

End Further.

Lemma split_1_absent sep s : ~ In sep s -> split_1 sep s = [s].
Proof.
  induction s as [|c s IH]; cbn [split_1 In]; intros N; [reflexivity|].
  destruct (Ascii.eqb c sep) eqn:E.
  - apply Ascii.eqb_eq in E. tauto.
  - rewrite IH by tauto. reflexivity.
Qed.

Lemma split_1_first sep before after :
  ~ In sep before -> split_1 sep (before ++ sep :: after) = [before; after].
Proof.
  induction before as [|c before IH]; cbn [split_1 In app]; intros N.
  - rewrite Ascii.eqb_refl. reflexivity.
  - destruct (Ascii.eqb c sep) eqn:E.
    + apply Ascii.eqb_eq in E. tauto.
    + rewrite IH by tauto. reflexivity.
Qed.

Section FurtherHandlers.

Context {R : Runtime}.

Lemma handle_mention_unfold event :
  handle_mention event =
  try_except_Exception
    (bind (mention_answer event) (fun response => call (Say response)))
    (fun e => bind (call (Say apology)) (fun _ =>
              print (txt "Error processing mention: " ++ exn_str e))).
Proof.
  unfold handle_mention, mention_answer, subscript_text, subscript_1.
  f_equal.
  destruct (event_text event) as [t|]; cbn [bind]; [|reflexivity].
  destruct (nth_error (split_1 ">" t) 1) as [part|]; reflexivity.
Qed.

Lemma handle_message_unfold event :
  is_im event = true ->
  handle_message event =
  try_except_Exception
    (bind (message_answer event) (fun response => call (Say response)))
    (fun e => bind (call (Say apology)) (fun _ =>
              print (txt "Error processing message: " ++ exn_str e))).
Proof.
  intros Im. unfold handle_message, message_answer, subscript_text.
  rewrite Im. f_equal.
  destruct (event_text event) as [t|]; reflexivity.
Qed.

(** What a handler does once its answer is produced, or has failed. *)
Lemma reply_run {A : Type} (w : env) h (answer : prog text) (label : text) :
  run w
    (try_except_Exception
       (bind answer (fun response => call (Say response)))
       (fun e => bind (call (Say apology)) (fun _ =>
                 print (label ++ exn_str e)))) h
  =
  let apologize e t :=
    match w _ (h ++ t) (Say apology) with
    | inr u => (Returned tt,
                t ++ [Called (Say apology) (inr u); Printed (label ++ exn_str e)])
    | inl e' => (Raised e', t ++ [Called (Say apology) (inl e')])
    end in
  match run w answer h with
  | (Returned response, t) =>
      match w _ (h ++ t) (Say response) with
      | inr u => (Returned u, t ++ [Called (Say response) (inr u)])
      | inl e =>
          if is_Exception e
          then apologize e (t ++ [Called (Say response) (inl e)])
          else (Raised e, t ++ [Called (Say response) (inl e)])
      end
  | (Raised e, t) => if is_Exception e then apologize e t else (Raised e, t)
  end.
Proof.
  cbv zeta. rewrite run_try_except, run_bind.
  destruct (run w answer h) as [[response|e] t].
  - unfold_program.
    destruct (w unit (h ++ t) (Say response)) as [e|u]; unfold_program.
    + destruct (is_Exception e); [|reflexivity].
      unfold_program. rewrite <- !app_assoc.
      destruct (w unit (h ++ t ++ [Called (Say response) (inl e)]) (Say apology))
        as [e'|[]]; unfold_program; rewrite <- ?app_assoc; reflexivity.
    + reflexivity.
  - destruct (is_Exception e); [|reflexivity].
    unfold_program.
    destruct (w unit (h ++ t) (Say apology)) as [e'|[]]; unfold_program; reflexivity.
Qed.

(** X11. When [query_database] raises (a refused connection, say),
    [generate_response] raises the same exception: the wiki results
    already found are dropped and the model is not asked for an answer. *)
Theorem database_failure_ends_generate_response
    (w : env) h self query cr tr1 e tr2 :
  run w (search_confluence (kb self) query) h = (Returned cr, tr1) ->
  run w (query_database (kb self) query) (h ++ tr1) = (Raised e, tr2) ->
  run w (generate_response self query) h = (Raised e, tr1 ++ tr2).
Proof.
  intros E1 E2. unfold generate_response.
  rewrite run_bind, E1, run_bind, E2. reflexivity.
Qed.

(** X12. When the answer is produced and the reply channel takes it, the
    handler says that answer, and nothing else, and ends normally. *)
Theorem handlers_reply_with_the_answer (w : env) h event response tr :
  w _ (h ++ tr) (Say response) = inr tt ->
  (run w (mention_answer event) h = (Returned response, tr) ->
     run w (handle_mention event) h =
       (Returned tt, tr ++ [Called (Say response) (inr tt)])
     /\ said (snd (run w (handle_mention event) h)) = [response])
  /\ (is_im event = true ->
      run w (message_answer event) h = (Returned response, tr) ->
     run w (handle_message event) h =
       (Returned tt, tr ++ [Called (Say response) (inr tt)])
     /\ said (snd (run w (handle_message event) h)) = [response]).
Proof.
  intros S. split.
  - intros E. rewrite handle_mention_unfold, (reply_run (A:=unit)). cbv zeta.
    rewrite E, S. split; [reflexivity|]. cbn [snd]. rewrite said_app.
    pose proof (mention_answer_says_nothing w h event) as N.
    rewrite E in N. cbn [snd] in N. rewrite N. reflexivity.
  - intros Im E. rewrite (handle_message_unfold event Im), (reply_run (A:=unit)).
    cbv zeta. rewrite E, S. split; [reflexivity|]. cbn [snd]. rewrite said_app.
    pose proof (message_answer_says_nothing w h event) as N.
    rewrite E in N. cbn [snd] in N. rewrite N. reflexivity.
Qed.

(** X13. [say(response)] is inside the [try]: when the reply channel
    refuses the answer with an instance of [Exception] and then takes the
    apology, the handler says the answer and then the apology, prints the
    exception, and ends normally. *)
Theorem failed_reply_is_followed_by_the_apology (w : env) h event response tr e :
  w _ (h ++ tr) (Say response) = inl e ->
  is_Exception e = true ->
  w _ (h ++ tr ++ [Called (Say response) (inl e)]) (Say apology) = inr tt ->
  (run w (mention_answer event) h = (Returned response, tr) ->
     run w (handle_mention event) h =
       (Returned tt,
        tr ++ [Called (Say response) (inl e); Called (Say apology) (inr tt);
               Printed (txt "Error processing mention: " ++ exn_str e)])
     /\ said (snd (run w (handle_mention event) h)) = [response; apology])
  /\ (is_im event = true ->
      run w (message_answer event) h = (Returned response, tr) ->
     run w (handle_message event) h =
       (Returned tt,
        tr ++ [Called (Say response) (inl e); Called (Say apology) (inr tt);
               Printed (txt "Error processing message: " ++ exn_str e)])
     /\ said (snd (run w (handle_message event) h)) = [response; apology]).
Proof.
  intros S Ex S'. split.
  - intros E. rewrite handle_mention_unfold, (reply_run (A:=unit)). cbv zeta.
    rewrite E, S, Ex, S', <- app_assoc. cbn [app].
    split; [reflexivity|]. cbn [snd]. rewrite said_app.
    pose proof (mention_answer_says_nothing w h event) as N.
    rewrite E in N. cbn [snd] in N. rewrite N. reflexivity.
  - intros Im E. rewrite (handle_message_unfold event Im), (reply_run (A:=unit)).
    cbv zeta.
    rewrite E, S, Ex, S', <- app_assoc. cbn [app].
    split; [reflexivity|]. cbn [snd]. rewrite said_app.
    pose proof (message_answer_says_nothing w h event) as N.
    rewrite E in N. cbn [snd] in N. rewrite N. reflexivity.
Qed.

(** X14. The apology itself is not protected: when producing the answer
    raises an instance of [Exception] and the reply channel refuses the
    apology too, the handler raises the exception of the channel and prints
    nothing. *)
Theorem refused_apology_leaves_the_handler (w : env) h event e tr e' :
  is_Exception e = true ->
  w _ (h ++ tr) (Say apology) = inl e' ->
  (run w (mention_answer event) h = (Raised e, tr) ->
     run w (handle_mention event) h =
       (Raised e', tr ++ [Called (Say apology) (inl e')]))
  /\ (is_im event = true ->
      run w (message_answer event) h = (Raised e, tr) ->
     run w (handle_message event) h =
       (Raised e', tr ++ [Called (Say apology) (inl e')])).
Proof.
  intros Ex S. split.
  - intros E. rewrite handle_mention_unfold, (reply_run (A:=unit)). cbv zeta.
    rewrite E, Ex, S. reflexivity.
  - intros Im E. rewrite (handle_message_unfold event Im), (reply_run (A:=unit)).
    cbv zeta. rewrite E, Ex, S. reflexivity.
Qed.

(** X15. The handlers catch instances of [Exception] only: another
    exception raised while the answer is produced (a keyboard interrupt,
    say) leaves the handler, which says and prints nothing. *)
Theorem other_exceptions_leave_the_handler (w : env) h event e tr :
  is_Exception e = false ->
  (run w (mention_answer event) h = (Raised e, tr) ->
     run w (handle_mention event) h = (Raised e, tr)
     /\ said (snd (run w (handle_mention event) h)) = [])
  /\ (is_im event = true ->
      run w (message_answer event) h = (Raised e, tr) ->
     run w (handle_message event) h = (Raised e, tr)
     /\ said (snd (run w (handle_message event) h)) = []).
Proof.
  intros Ex. split.
  - intros E. rewrite handle_mention_unfold, (reply_run (A:=unit)). cbv zeta.
    rewrite E, Ex. split; [reflexivity|]. cbn [snd].
    pose proof (mention_answer_says_nothing w h event) as N.
    rewrite E in N. exact N.
  - intros Im E. rewrite (handle_message_unfold event Im), (reply_run (A:=unit)).
    cbv zeta. rewrite E, Ex. split; [reflexivity|]. cbn [snd].
    pose proof (message_answer_says_nothing w h event) as N.
    rewrite E in N. exact N.
Qed.

(** X16. [handle_message] answers direct messages only: for an event
    whose [channel_type] is missing or is not exactly [im], it makes no
    call at all and says nothing. *)
Theorem handle_message_ignores_other_channels (w : env) h event :
  event_channel_type event <> Some (txt "im") ->
  run w (handle_message event) h = (Returned tt, []).
Proof.
  intros N. unfold handle_message, is_im.
  destruct (event_channel_type event) as [c|]; [|reflexivity].
  destruct (text_eqb c (txt "im")) eqn:E; [|reflexivity].
  apply text_eqb_eq in E. subst c. exfalso. apply N. reflexivity.
Qed.

(** X17. A mention whose event has no [text], or whose text holds no
    [>], raises inside the [try] before anything is searched: the handler
    says the apology and makes no other call. *)
Theorem mention_without_question_gets_the_apology (w : env) h event :
  w _ h (Say apology) = inr tt ->
  (event_text event = None ->
     run w (handle_mention event) h =
       (Returned tt,
        [Called (Say apology) (inr tt);
         Printed (txt "Error processing mention: " ++ exn_str (KeyError (txt "text")))]))
  /\ (forall t, event_text event = Some t -> ~ In ">"%char t ->
     run w (handle_mention event) h =
       (Returned tt,
        [Called (Say apology) (inr tt);
         Printed (txt "Error processing mention: " ++ exn_str IndexError)])).
Proof.
  intros S. split.
  - intros E. unfold handle_mention, subscript_text. rewrite E.
    unfold_program. change (is_Exception (KeyError (txt "text"))) with true.
    unfold_program. rewrite S. reflexivity.
  - intros t E N. unfold handle_mention, subscript_text, subscript_1.
    rewrite E. cbn [try_except_Exception bind]. rewrite (split_1_absent _ _ N).
    unfold_program. cbn [nth_error]. unfold_program.
    change (is_Exception IndexError) with true.
    unfold_program. rewrite S. reflexivity.
Qed.

(** X18. The question of a mention is what follows the first [>] of the
    text, stripped: what stands before it is dropped and every later [>]
    is part of the question.  The question of a direct message is the
    whole text, not stripped. *)
Theorem question_of_an_event (event : slack_event) before after :
  event_text event = Some (before ++ ">"%char :: after) ->
  ~ In ">"%char before ->
  mention_answer event = generate_response response_generator (strip after)
  /\ message_answer event =
     generate_response response_generator (before ++ ">"%char :: after).
Proof.
  intros E N. unfold mention_answer, message_answer, subscript_text, subscript_1.
  rewrite E. cbn [bind]. rewrite (split_1_first _ _ after N). split; reflexivity.
Qed.

End FurtherHandlers.

Lemma nonletter_lower c : is_ascii_letter c = false -> is_ascii_letter (lower_char c) = false.
Proof. each_char c; vm_compute; congruence. Qed.

Lemma letter_lower p : is_ascii_letter p = true -> is_ascii_letter (lower_char p) = true.
Proof. each_char p; vm_compute; congruence. Qed.

Lemma letter_rejects_nonletter p c :
  is_ascii_letter p = true -> is_ascii_letter c = false -> lit_accepts true p c = false.
Proof.
  intros Hp Hc. unfold lit_accepts. apply Ascii.eqb_neq. intros E.
  apply letter_lower in Hp. apply nonletter_lower in Hc. congruence.
Qed.

Lemma re_search_nowhere p t :
  re_match p [] = false ->
  (forall c s, is_ascii_letter c = false -> re_match p (c :: s) = false) ->
  Forall (fun c => is_ascii_letter c = false) t ->
  re_search p t = false.
Proof.
  intros H0 H1 F. induction F as [|c t Hc _ IH]; cbn [re_search].
  - rewrite H0. reflexivity.
  - rewrite (H1 c t Hc), IH. reflexivity.
Qed.

Lemma configured_patterns_begin_with_a_letter p :
  In p (blocked_patterns ContentFilter_init) ->
  re_match p [] = false
  /\ forall c s, is_ascii_letter c = false -> re_match p (c :: s) = false.
Proof.
  intros Hp. cbn [blocked_patterns ContentFilter_init In] in Hp.
  decompose [or] Hp; try contradiction; subst p; (split; [reflexivity|]);
    intros c s Hc; unfold re_match;
    cbn [ignorecase body lits list_ascii_of_string backtrack];
    rewrite letter_rejects_nonletter by (reflexivity || assumption); reflexivity.
Qed.

Lemma no_pattern_found_app ps qs t :
  no_pattern_found (ps ++ qs) t = no_pattern_found ps t && no_pattern_found qs t.
Proof.
  induction ps as [|p ps IH]; cbn [app no_pattern_found]; [reflexivity|].
  destruct (re_search p t); [reflexivity|apply IH].
Qed.


(** X20. The configured patterns are words: a text without any letter
    A..Z or a..z (digits, spaces, punctuation: a card number or a social
    security number itself) always passes the filter. *)
Theorem text_without_letters_is_safe (t : text) :
  Forall (fun c => is_ascii_letter c = false) t ->
  is_safe_content ContentFilter_init t = true.
Proof.
  intros F. destruct (is_safe_content ContentFilter_init t) eqn:E; [reflexivity|].
  apply no_pattern_found_spec in E. destruct E as (p & Hp & Hs).
  destruct (configured_patterns_begin_with_a_letter p Hp) as (H0 & H1).
  rewrite (re_search_nowhere p t H0 H1 F) in Hs. discriminate.
Qed.

(** X21. No configured pattern matches across a line break: a text with
    a newline passes the filter exactly when the text before it and the
    text after it both pass. *)
Theorem filter_reads_line_by_line (a b : text) :
  is_safe_content ContentFilter_init (a ++ newline :: b) =
  is_safe_content ContentFilter_init a && is_safe_content ContentFilter_init b.
Proof.
  unfold is_safe_content. apply no_pattern_found_newline. repeat constructor.
Qed.

(** X22. The decision is the conjunction over the patterns: a filter
    with the patterns [ps ++ qs] passes a text exactly when the filters
    with [ps] and with [qs] both do; so the order of the patterns does not
    matter, and adding patterns never lets through a text that was
    blocked. *)
Theorem more_patterns_block_more (ps qs : list pattern) (t : text) :
  is_safe_content {| blocked_patterns := ps ++ qs |} t =
    is_safe_content {| blocked_patterns := ps |} t
    && is_safe_content {| blocked_patterns := qs |} t
  /\ is_safe_content {| blocked_patterns := ps ++ qs |} t =
     is_safe_content {| blocked_patterns := qs ++ ps |} t
  /\ (is_safe_content {| blocked_patterns := ps |} t = false ->
      is_safe_content {| blocked_patterns := ps ++ qs |} t = false).
Proof.
  unfold is_safe_content. cbn [blocked_patterns].
  rewrite !no_pattern_found_app. split; [reflexivity|]. split.
  - apply andb_comm.
  - intros ->. reflexivity.
Qed.

Lemma combine_snoc {A B} (l : list A) : forall (l' : list B) a b,
  List.length l = List.length l' ->
  combine (l ++ [a]) (l' ++ [b]) = combine l l' ++ [(a, b)].
Proof.
  induction l as [|x l IH]; intros [|y l'] a b L; try discriminate; cbn.
  - reflexivity.
  - rewrite IH; [reflexivity|]. injection L. auto.
Qed.

Section FurtherRecords.

Context {R : Runtime}.

Lemma dict_set_In (d : dict value) k v k' v' :
  In (k', v') (dict_set d k v) -> In (k', v') d \/ (k', v') = (k, v).
Proof.
  induction d as [|[k0 v0] d IH]; cbn [dict_set In].
  - intros [E|[]]. right. congruence.
  - destruct (text_eqb k0 k) eqn:E; cbn [In].
    + apply text_eqb_eq in E. subst k0. intros [H|H]; [right; congruence|tauto].
    + intros [H|H]; [tauto|]. apply IH in H. tauto.
Qed.

Lemma dict_set_binds (d : dict value) k v : In (k, v) (dict_set d k v).
Proof.
  induction d as [|[k0 v0] d IH]; cbn [dict_set In]; [auto|].
  destruct (text_eqb k0 k) eqn:E; cbn [In].
  - apply text_eqb_eq in E. subst k0. auto.
  - auto.
Qed.

Lemma dict_set_keys (d : dict value) k v :
  NoDup (map fst d) -> NoDup (map fst (dict_set d k v)).
Proof.
  intros N. destruct (in_dec (list_eq_dec ascii_dec) k (map fst d)) as [I|I].
  - replace (map fst (dict_set d k v)) with (map fst d); [assumption|].
    clear N. induction d as [|[k0 v0] d IH]; cbn [dict_set map fst In] in *; [tauto|].
    destruct (text_eqb k0 k) eqn:E; cbn [map fst]; [reflexivity|].
    rewrite <- IH; [reflexivity|].
    destruct I as [I|I]; [|assumption].
    subst k0. pose proof (proj2 (text_eqb_eq k k) eq_refl). congruence.
  - rewrite dict_set_fresh by assumption. rewrite map_app. cbn [map fst].
    apply NoDup_app; [assumption|repeat constructor; cbn; tauto|].
    intros x Hx [<-|[]]. tauto.
Qed.

Lemma dict_fold_facts (pairs : list (text * value)) : forall d,
  NoDup (map fst d) ->
  NoDup (map fst (fold_left (fun d kv => dict_set d (fst kv) (snd kv)) pairs d))
  /\ forall k v,
       In (k, v) (fold_left (fun d kv => dict_set d (fst kv) (snd kv)) pairs d) ->
       In (k, v) d \/ In (k, v) pairs.
Proof.
  induction pairs as [|[k0 v0] pairs IH]; intros d N; cbn [fold_left fst snd].
  - split; [assumption|tauto].
  - destruct (IH (dict_set d k0 v0) (dict_set_keys d k0 v0 N)) as (N' & I').
    split; [assumption|]. intros k v H. apply I' in H. cbn [In].
    destruct H as [H|H]; [|tauto]. apply dict_set_In in H.
    destruct H as [H|H]; [tauto|]. right. left. congruence.
Qed.

(** X23. The record built from a row has each column name once, and each
    of its entries is a column paired with the value at the same place of
    the row: so every value of the record is a value of the row.  The last
    column of a name gives the value; under a repeated name the earlier
    value is replaced and is in the record no more. *)
Theorem record_entries_come_from_the_row (columns : list text) (row : list value) :
  NoDup (map fst (record_of columns row))
  /\ (forall k v, In (k, v) (record_of columns row) -> In (k, v) (zip columns row))
  /\ (forall v, In v (values (record_of columns row)) -> In v row)
  /\ (forall k v, List.length columns = List.length row ->
        In (k, v) (record_of (columns ++ [k]) (row ++ [v])))
  /\ (forall k v1 v2, record_of [k; k] [v1; v2] = [(k, v2)]).
Proof.
  unfold record_of, dict_of.
  destruct (dict_fold_facts (zip columns row) [] (NoDup_nil _)) as (N & I).
  split; [assumption|]. split; [|split; [|split]].
  - intros k v H. apply I in H. destruct H as [[]|H]. assumption.
  - intros v H. unfold values in H. apply in_map_iff in H.
    destruct H as ([k v'] & E & H). cbn [snd] in E. subst v'.
    apply I in H. destruct H as [[]|H]. unfold zip in H.
    apply in_combine_r in H. assumption.
  - intros k v L. unfold zip.
    rewrite combine_snoc by assumption.
    rewrite fold_left_app. cbn [fold_left fst snd].
    apply dict_set_binds.
  - intros k v1 v2. cbn [zip combine fold_left fst snd dict_set].
    rewrite (proj2 (text_eqb_eq k k) eq_refl). reflexivity.
Qed.

End FurtherRecords.

(* ================================================================== *)
(** * The claims on concrete runs *)
(* ================================================================== *)

#[local] Existing Instance sample_runtime.

(** C1, as stated, fails: the model answers with a blocked word and
    [generate_response] returns it. *)
Lemma final_answer_can_hold_blocked_text :
  fst (run (scripted leaky_answer) (generate_response response_generator vpn_question) [])
  = Returned (txt "The admin password is hunter2" ++ nl ++ nl ++ txt "Sources: Confluence")
  /\ is_safe_content ContentFilter_init
       (txt "The admin password is hunter2" ++ nl ++ nl ++ txt "Sources: Confluence")
     = false.
Proof. split; vm_compute; reflexivity. Qed.

Lemma generate_response_returns_completion_unchecked_witness :
  fst (run (scripted leaky_answer) (generate_response response_generator vpn_question) [])
  = Returned (add_attribution (strip (txt "The admin password is hunter2"))
                (sources_of (R:=sample_runtime)
                   [item_of (RawResult (Some (txt "Install the client, then log in."))
                               (Some (txt "VPN setup")) (Some (txt "Install the client"))
                               (Some (Some (txt "/wiki/vpn"))))]
                   []))
  /\ is_safe_content ContentFilter_init (strip (txt "The admin password is hunter2")) = false.
Proof.
  pose (w := scripted leaky_answer).
  pose (tr1 := snd (run w (search_confluence (kb response_generator) vpn_question) [])).
  pose (tr2 := snd (run w (query_database (kb response_generator) vpn_question) ([] ++ tr1))).
  destruct (generate_response_returns_completion_unchecked (R:=sample_runtime)
              w [] vpn_question
              [item_of (RawResult (Some (txt "Install the client, then log in."))
                          (Some (txt "VPN setup")) (Some (txt "Install the client"))
                          (Some (Some (txt "/wiki/vpn"))))]
              [] tr1 tr2 (txt "The admin password is hunter2"))
    as (_ & H & _).
  - vm_compute. reflexivity.
  - vm_compute. reflexivity.
  - vm_compute. reflexivity.
  - unfold w in H. split; [rewrite H; reflexivity|vm_compute; reflexivity].
Defined.

Lemma rejected_query_is_never_executed_witness :
  begins_ci (strip (txt "DROP TABLE users;")) (txt "select") = false
  /\ run (scripted drop_table) (query_database KnowledgeBase_init vpn_question) []
     = (Returned [],
        [Called (Llm (sql_prompt vpn_question) 100) (inr (txt "DROP TABLE users;"))]).
Proof.
  split; [reflexivity|].
  destruct (rejected_query_is_never_executed (R:=sample_runtime)
              (scripted drop_table) [] KnowledgeBase_init vpn_question
              (txt "DROP TABLE users;") eq_refl) as (_ & H).
  destruct (H eq_refl) as (H1 & _). exact H1.
Defined.

(** C3 at a database that refuses the connection: the exception of
    [psycopg2.connect] leaves [query_database]. *)
Theorem connection_failure_escapes_query_database :
  run (scripted database_down) (query_database KnowledgeBase_init vpn_question) []
  = (Raised OperationalError,
     [Called (Llm (sql_prompt vpn_question) 100)
        (inr (txt "  Select name, note FROM secrets; DROP TABLE users;  "));
      Called connect_event (inl OperationalError)]).
Proof. vm_compute. reflexivity. Qed.

(** ... whereas the exception of a statement the database refuses is
    caught and printed. *)
Example refused_statement_yields_no_records :
  run (scripted bad_statement) (query_database KnowledgeBase_init vpn_question) []
  = (Returned [],
     opening vpn_question (txt "  Select name, note FROM secrets; DROP TABLE users;  ") 1 2
     ++ [Called (CurExecute 2 (txt "Select name, note FROM secrets; DROP TABLE users;"))
           (inl ProgrammingError);
         Printed (txt "Database query error: syntax error at or near FROM");
         Called (CurClose 2) (inr tt);
         Called (ConnCommit 1) (inr tt)]).
Proof. vm_compute. reflexivity. Qed.

(** C4 at a wiki page whose [content] is clean and whose [excerpt] is not:
    the excerpt is returned. *)
Theorem unchecked_excerpt_is_returned :
  fst (run (scripted leaky_wiki) (search_confluence KnowledgeBase_init vpn_question) [])
  = Returned [ {| title := Some (txt "VPN");
                  excerpt := Some (txt "the admin password is hunter2");
                  url := None |} ]
  /\ is_safe_content ContentFilter_init (txt "the admin password is hunter2") = false.
Proof. split; vm_compute; reflexivity. Qed.

(** C5, as stated, fails under a repeated column name: the row with
    [my password] in its first field has a record in the result, and the
    row whose values all pass comes back without its first value. *)
Lemma repeated_column_name_breaks_row_atomicity :
  fst (run (scripted repeated_column) (query_database KnowledgeBase_init vpn_question) [])
  = Returned [ record_of (R:=sample_runtime) repeated_columns secret_row;
               record_of (R:=sample_runtime) repeated_columns plain_row ]
  /\ In (SqlText (txt "my password")) secret_row
  /\ is_safe_content ContentFilter_init (sql_value_str (SqlText (txt "my password"))) = false
  /\ record_of (R:=sample_runtime) repeated_columns secret_row
     = [(txt "id", SqlText (txt "7")); (txt "name", SqlText (txt "Alice"))]
  /\ forallb (fun v => is_safe_content ContentFilter_init (sql_value_str v)) plain_row = true
  /\ values (record_of (R:=sample_runtime) repeated_columns plain_row) <> plain_row.
Proof.
  split; [vm_compute; reflexivity|].
  split; [left; reflexivity|].
  split; [vm_compute; reflexivity|].
  split; [vm_compute; reflexivity|].
  split; [vm_compute; reflexivity|].
  vm_compute. discriminate.
Qed.

Lemma query_database_keeps_the_safe_records_witness :
  query_guard (strip (txt "  Select name, note FROM secrets; DROP TABLE users;  ")) = true
  /\ fst (run (scripted select_and_drop) (query_database KnowledgeBase_init vpn_question) [])
     = Returned [alice; carol]
  /\ ~ In (record_of (R:=sample_runtime) [txt "name"; txt "note"]
             [SqlText (txt "Bob"); SqlText (txt "his password is hunter2")])
          [alice; carol].
Proof.
  split; [reflexivity|].
  destruct (query_database_keeps_the_safe_records (R:=sample_runtime)
              (scripted select_and_drop) [] KnowledgeBase_init vpn_question
              (txt "  Select name, note FROM secrets; DROP TABLE users;  ") 1 2
              [txt "name"; txt "note"]
              [[SqlText (txt "Alice"); SqlText (txt "on call")];
               [SqlText (txt "Bob"); SqlText (txt "his password is hunter2")];
               [SqlText (txt "Carol"); SqlNull]])
    as (H & _ & _ & _ & Hrow).
  - vm_compute. repeat split.
  - reflexivity.
  - split; [rewrite H; vm_compute; reflexivity|].
    destruct (Hrow [SqlText (txt "Bob"); SqlText (txt "his password is hunter2")])
      as (Habsent & _).
    + right. left. reflexivity.
    + repeat constructor; cbn; intros D; decompose [or] D; try discriminate; assumption.
    + reflexivity.
    + apply Habsent.
      exists (SqlText (txt "his password is hunter2")). split; [right; left; reflexivity|].
      vm_compute. reflexivity.
Defined.

Lemma QueryGuard_is_a_prefix_gate_witness :
  QueryGuard_accepts (txt "DROP TABLE users;") = false
  /\ run (scripted drop_table) (query_database KnowledgeBase_init vpn_question) []
     = (Returned [],
        [Called (Llm (sql_prompt vpn_question) 100) (inr (txt "DROP TABLE users;"))])
  /\ QueryGuard_accepts (txt "  SeLeCt )) from nowhere") = true.
Proof.
  destruct (QueryGuard_is_a_prefix_gate (R:=sample_runtime)
              (scripted drop_table) [] KnowledgeBase_init vpn_question
              (txt "DROP TABLE users;") eq_refl)
    as (_ & Hreject & _ & Hprefix).
  split; [reflexivity|]. split; [apply Hreject; reflexivity|].
  apply (Hprefix (txt "  ") (txt "SeLeCt") (txt " )) from nowhere")).
  - repeat constructor.
  - repeat constructor.
Defined.

Lemma is_safe_content_decides_blocked_patterns_witness :
  casing_variation (txt "my password") (txt "My PassWord")
  /\ whitespace (txt "  ")
  /\ is_safe_content ContentFilter_init (txt "My PassWord")
     = is_safe_content ContentFilter_init (txt "my password")
  /\ is_safe_content ContentFilter_init (txt "  " ++ txt "my password" ++ txt "  ")
     = is_safe_content ContentFilter_init (txt "my password").
Proof.
  assert (C : casing_variation (txt "my password") (txt "My PassWord"))
    by (repeat constructor).
  assert (W : whitespace (txt "  ")) by (repeat constructor).
  destruct (is_safe_content_decides_blocked_patterns ContentFilter_init (txt "my password"))
    as (_ & _ & Hc & Hw & _).
  split; [exact C|]. split; [exact W|]. split.
  - apply Hc. exact C.
  - apply Hw; exact W.
Defined.

Lemma accepted_query_is_executed_verbatim_witness :
  begins_ci (strip (txt "  Select name, note FROM secrets; DROP TABLE users;  "))
    (txt "select") = true
  /\ executed (snd (run (scripted select_and_drop)
                      (query_database KnowledgeBase_init vpn_question) []))
     = [txt "Select name, note FROM secrets; DROP TABLE users;"].
Proof.
  split; [reflexivity|].
  destruct (accepted_query_is_executed_verbatim (R:=sample_runtime)
              (scripted select_and_drop) [] KnowledgeBase_init vpn_question
              (txt "  Select name, note FROM secrets; DROP TABLE users;  ") 1 2)
    as (H & _).
  - vm_compute. repeat split.
  - reflexivity.
  - rewrite H. reflexivity.
Defined.


Lemma handlers_answer_errors_with_the_apology_witness :
  fst (run (scripted broken_model) (mention_answer vpn_mention) []) = Raised RuntimeError
  /\ fst (run (scripted broken_model) (handle_mention vpn_mention) []) = Returned tt
  /\ said (snd (run (scripted broken_model) (handle_mention vpn_mention) [])) = [apology]
  /\ fst (run (scripted broken_model) (handle_message vpn_message) []) = Returned tt
  /\ said (snd (run (scripted broken_model) (handle_message vpn_message) [])) = [apology].
Proof.
  pose (w := scripted broken_model).
  pose (tr := snd (run w (mention_answer vpn_mention) [])).
  pose (tr' := snd (run w (message_answer vpn_message) [])).
  destruct (handlers_answer_errors_with_the_apology (R:=sample_runtime)
              w [] vpn_mention RuntimeError tr eq_refl eq_refl) as (Hm & _).
  destruct (handlers_answer_errors_with_the_apology (R:=sample_runtime)
              w [] vpn_message RuntimeError tr' eq_refl eq_refl) as (_ & Hd).
  destruct Hm as (H1 & H2); [vm_compute; reflexivity|].
  destruct Hd as (H3 & H4); [reflexivity|vm_compute; reflexivity|].
  unfold w in *.
  split; [vm_compute; reflexivity|].
  split; [rewrite H1; reflexivity|]. split; [exact H2|].
  split; [rewrite H3; reflexivity|exact H4].
Defined.

(** The row of the specification's third scenario holds no blocked word
    in its values (the column name [ssn] is not a value): it is kept. *)
Example scenario_3_row_is_kept :
  query_database_loop (R:=sample_runtime) KnowledgeBase_init [txt "name"; txt "ssn"]
    [[SqlText (txt "Alice"); SqlText (txt "123-45-6789")]] []
  = [[(txt "name", SqlText (txt "Alice")); (txt "ssn", SqlText (txt "123-45-6789"))]].
Proof. vm_compute. reflexivity. Qed.

Example is_safe_content_examples :
  is_safe_content ContentFilter_init (txt "VPN setup guide") = true
  /\ is_safe_content ContentFilter_init (txt "my PassWord is x") = false
  /\ is_safe_content ContentFilter_init (txt "Credit Card") = false
  /\ is_safe_content ContentFilter_init (txt "creditcard") = false
  /\ is_safe_content ContentFilter_init (txt "credit  card") = true
  /\ is_safe_content ContentFilter_init (txt "social-security") = false.
Proof. repeat split. Qed.

Example string_examples :
  strip (txt "  a b  ") = txt "a b"
  /\ split_1 ">" (txt "<@U1> hi > x") = [txt "<@U1"; txt " hi > x"]
  /\ split_1 ">" (txt "hello") = [txt "hello"]
  /\ join (txt " and ") [txt "Confluence"; txt "internal database"]
     = txt "Confluence and internal database".
Proof. repeat split. Qed.

(* ================================================================== *)
(** * The further properties on concrete runs *)
(* ================================================================== *)

Lemma search_confluence_keeps_passing_results_witness :
  fst (run (scripted mixed_wiki) (search_confluence KnowledgeBase_init vpn_question) [])
  = Returned [ WikiItem (Some (txt "VPN")) (Some (txt "Install")) None;
               WikiItem (Some (txt "Help")) (Some (txt "Ask")) None ].
Proof.
  destruct (search_confluence_keeps_passing_results (R:=sample_runtime)
              (scripted mixed_wiki) [] KnowledgeBase_init vpn_question
              [RawResult (Some (txt "Install the client.")) (Some (txt "VPN"))
                 (Some (txt "Install")) None;
               RawResult (Some (txt "The wifi password is hunter2")) (Some (txt "Wifi"))
                 (Some (txt "Wifi access")) None;
               RawResult (Some (txt "Ask the help desk.")) (Some (txt "Help"))
                 (Some (txt "Ask")) None]
              eq_refl) as (H & _).
  rewrite H. vm_compute. reflexivity.
Defined.

Lemma wiki_failure_ends_generate_response_witness :
  run (scripted wiki_down) (generate_response response_generator vpn_question) []
  = (Raised ConnectionError, [Called (ConfluenceSearch vpn_question 5) (inl ConnectionError)]).
Proof.
  apply (wiki_failure_ends_generate_response (R:=sample_runtime)
           (scripted wiki_down) [] response_generator vpn_question ConnectionError eq_refl).
Defined.

Lemma result_without_content_is_kept_witness :
  is_safe_content ContentFilter_init (txt "credit card 4111 1111") = false
  /\ exists items,
       fst (run (scripted contentless_wiki)
              (search_confluence KnowledgeBase_init vpn_question) []) = Returned items
       /\ In (item_of contentless_result) items.
Proof.
  split; [reflexivity|].
  apply (result_without_content_is_kept (R:=sample_runtime)
           (scripted contentless_wiki) [] vpn_question [contentless_result]
           contentless_result eq_refl).
  - left. reflexivity.
  - reflexivity.
Defined.

Lemma translation_failure_leaves_query_database_witness :
  run (scripted model_down) (query_database KnowledgeBase_init vpn_question) []
  = (Raised RuntimeError, [Called (Llm (sql_prompt vpn_question) 100) (inl RuntimeError)]).
Proof.
  apply (translation_failure_leaves_query_database (R:=sample_runtime)
           (scripted model_down) [] KnowledgeBase_init vpn_question RuntimeError eq_refl).
Defined.

Lemma short_completion_gives_no_records_witness :
  run (scripted blank_translation) (query_database KnowledgeBase_init vpn_question) []
  = (Returned [], [Called (Llm (sql_prompt vpn_question) 100) (inr (txt "   "))]).
Proof.
  apply (short_completion_gives_no_records (R:=sample_runtime)
           (scripted blank_translation) [] KnowledgeBase_init vpn_question (txt "   ")
           eq_refl).
  vm_compute. lia.
Defined.

Lemma refused_statement_is_caught_witness :
  fst (run (scripted bad_statement) (query_database KnowledgeBase_init vpn_question) [])
  = Returned [].
Proof.
  rewrite (refused_statement_is_caught (R:=sample_runtime)
             (scripted bad_statement) [] KnowledgeBase_init vpn_question
             (txt "  Select name, note FROM secrets; DROP TABLE users;  ") 1 2
             ProgrammingError).
  - reflexivity.
  - vm_compute. repeat split.
  - reflexivity.
  - reflexivity.
Defined.

Lemma statement_without_result_set_gives_no_records_witness :
  fst (run (scripted no_result_set) (query_database KnowledgeBase_init vpn_question) [])
  = Returned [].
Proof.
  rewrite (statement_without_result_set_gives_no_records (R:=sample_runtime)
             (scripted no_result_set) [] KnowledgeBase_init vpn_question
             (txt "  Select name, note FROM secrets; DROP TABLE users;  ") 1 2).
  - reflexivity.
  - vm_compute. repeat split.
  - reflexivity.
Defined.

Lemma failed_fetch_is_caught_witness :
  fst (run (scripted fetch_fails) (query_database KnowledgeBase_init vpn_question) [])
  = Returned [].
Proof.
  rewrite (failed_fetch_is_caught (R:=sample_runtime)
             (scripted fetch_fails) [] KnowledgeBase_init vpn_question
             (txt "  Select name, note FROM secrets; DROP TABLE users;  ") 1 2
             [txt "name"; txt "note"] ProgrammingError).
  - reflexivity.
  - vm_compute. repeat split.
  - reflexivity.
  - reflexivity.
Defined.

Lemma other_exceptions_leave_query_database_witness :
  fst (run (scripted interrupted) (query_database KnowledgeBase_init vpn_question) [])
  = Raised KeyboardInterrupt.
Proof.
  rewrite (other_exceptions_leave_query_database (R:=sample_runtime)
             (scripted interrupted) [] KnowledgeBase_init vpn_question
             (txt "  Select name, note FROM secrets; DROP TABLE users;  ") 1 2
             KeyboardInterrupt).
  - reflexivity.
  - vm_compute. repeat split.
  - reflexivity.
  - reflexivity.
Defined.

Lemma query_database_releases_what_it_opens_witness :
  count_steps cursor_opened
    (snd (run (scripted select_and_drop) (query_database KnowledgeBase_init vpn_question) []))
  = 1
  /\ count_steps rolled_back
       (snd (run (scripted select_and_drop) (query_database KnowledgeBase_init vpn_question) []))
     = 0.
Proof.
  destruct (query_database_releases_what_it_opens (R:=sample_runtime)
              (scripted select_and_drop) [] KnowledgeBase_init vpn_question)
    as (_ & _ & H).
  split; [reflexivity|]. apply (H [alice; carol]). vm_compute. reflexivity.
Defined.

Lemma database_failure_ends_generate_response_witness :
  fst (run (scripted database_down) (generate_response response_generator vpn_question) [])
  = Raised OperationalError.
Proof.
  rewrite (database_failure_ends_generate_response (R:=sample_runtime)
             (scripted database_down) [] response_generator vpn_question
             [item_of (RawResult (Some (txt "Install the client, then log in."))
                         (Some (txt "VPN setup")) (Some (txt "Install the client"))
                         (Some (Some (txt "/wiki/vpn"))))]
             (snd (run (scripted database_down)
                     (search_confluence (kb response_generator) vpn_question) []))
             OperationalError
             (snd (run (scripted database_down)
                     (query_database (kb response_generator) vpn_question)
                     ([] ++ snd (run (scripted database_down)
                                   (search_confluence (kb response_generator) vpn_question) []))))).
  - reflexivity.
  - vm_compute. reflexivity.
  - vm_compute. reflexivity.
Defined.

Lemma handlers_reply_with_the_answer_witness :
  said (snd (run (scripted quiet) (handle_mention vpn_mention) [])) = [the_answer]
  /\ said (snd (run (scripted quiet) (handle_message vpn_message) [])) = [the_answer].
Proof.
  destruct (handlers_reply_with_the_answer (R:=sample_runtime)
              (scripted quiet) [] vpn_mention the_answer
              (snd (run (scripted quiet) (mention_answer vpn_mention) [])) eq_refl)
    as (Hm & _).
  destruct (handlers_reply_with_the_answer (R:=sample_runtime)
              (scripted quiet) [] vpn_message the_answer
              (snd (run (scripted quiet) (message_answer vpn_message) [])) eq_refl)
    as (_ & Hd).
  split.
  - apply Hm. vm_compute. reflexivity.
  - apply Hd; [reflexivity|]. vm_compute. reflexivity.
Defined.

Lemma failed_reply_is_followed_by_the_apology_witness :
  said (snd (run only_apology_gets_through (handle_mention vpn_mention) []))
  = [the_answer; apology].
Proof.
  destruct (failed_reply_is_followed_by_the_apology (R:=sample_runtime)
              only_apology_gets_through [] vpn_mention the_answer
              (snd (run only_apology_gets_through (mention_answer vpn_mention) []))
              SlackApiError)
    as (Hm & _).
  - vm_compute. reflexivity.
  - reflexivity.
  - vm_compute. reflexivity.
  - apply Hm. vm_compute. reflexivity.
Defined.

Lemma refused_apology_leaves_the_handler_witness :
  fst (run (scripted channel_down) (handle_mention vpn_mention) []) = Raised SlackApiError.
Proof.
  destruct (refused_apology_leaves_the_handler (R:=sample_runtime)
              (scripted channel_down) [] vpn_mention RuntimeError
              (snd (run (scripted channel_down) (mention_answer vpn_mention) []))
              SlackApiError eq_refl eq_refl)
    as (Hm & _).
  rewrite Hm; [reflexivity|]. vm_compute. reflexivity.
Defined.

Lemma other_exceptions_leave_the_handler_witness :
  fst (run (scripted interrupted_model) (handle_mention vpn_mention) [])
  = Raised KeyboardInterrupt
  /\ said (snd (run (scripted interrupted_model) (handle_mention vpn_mention) [])) = [].
Proof.
  destruct (other_exceptions_leave_the_handler (R:=sample_runtime)
              (scripted interrupted_model) [] vpn_mention KeyboardInterrupt
              (snd (run (scripted interrupted_model) (mention_answer vpn_mention) []))
              eq_refl)
    as (Hm & _).
  destruct Hm as (H1 & H2); [vm_compute; reflexivity|].
  split; [rewrite H1; reflexivity|exact H2].
Defined.

Lemma handle_message_ignores_other_channels_witness :
  run (scripted quiet) (handle_message channel_message) [] = (Returned tt, []).
Proof.
  apply (handle_message_ignores_other_channels (R:=sample_runtime)
           (scripted quiet) [] channel_message).
  discriminate.
Defined.

Lemma mention_without_question_gets_the_apology_witness :
  said (snd (run (scripted quiet) (handle_mention bare_mention) [])) = [apology]
  /\ said (snd (run (scripted quiet) (handle_mention textless_event) [])) = [apology].
Proof.
  destruct (mention_without_question_gets_the_apology (R:=sample_runtime)
              (scripted quiet) [] bare_mention eq_refl) as (_ & Hb).
  destruct (mention_without_question_gets_the_apology (R:=sample_runtime)
              (scripted quiet) [] textless_event eq_refl) as (Ht & _).
  split.
  - rewrite (Hb (txt "hello bot") eq_refl); [reflexivity|].
    cbn. intros H. decompose [or] H; try discriminate; assumption.
  - rewrite (Ht eq_refl). reflexivity.
Defined.

Lemma question_of_an_event_witness :
  mention_answer (R:=sample_runtime) vpn_mention
  = generate_response response_generator vpn_question.
Proof.
  destruct (question_of_an_event (R:=sample_runtime) vpn_mention
              (txt "<@U0123") (txt " What is the VPN setup process?") eq_refl)
    as (H & _).
  - cbn. intros H. decompose [or] H; try discriminate; assumption.
  - rewrite H. reflexivity.
Defined.


Lemma text_without_letters_is_safe_witness :
  is_safe_content ContentFilter_init (txt "123-45-6789") = true
  /\ is_safe_content ContentFilter_init (txt "4111 1111 1111 1111") = true.
Proof.
  split; apply text_without_letters_is_safe; repeat constructor.
Defined.

Lemma more_patterns_block_more_witness :
  is_safe_content
    {| blocked_patterns :=
         blocked_patterns ContentFilter_init ++ [Pattern true (lits (txt "salary"))] |}
    (txt "my PassWord") = false.
Proof.
  destruct (more_patterns_block_more (blocked_patterns ContentFilter_init)
              [Pattern true (lits (txt "salary"))] (txt "my PassWord"))
    as (_ & _ & H).
  apply H. reflexivity.
Defined.

Lemma record_entries_come_from_the_row_witness :
  In (txt "id", SqlText (txt "7"))
     (record_of (R:=sample_runtime) ([txt "id"; txt "name"] ++ [txt "id"])
        ([SqlText (txt "1"); SqlText (txt "Alice")] ++ [SqlText (txt "7")])).
Proof.
  destruct (record_entries_come_from_the_row (R:=sample_runtime)
              [txt "id"; txt "name"] [SqlText (txt "1"); SqlText (txt "Alice")])
    as (_ & _ & _ & H & _).
  apply H. reflexivity.
Defined.
